(** * rastertorw402b: the Munbyn RW402B CUPS raster filter

    A shallow embedding of [RW402B-Linux-Driver/rastertorw402b.c] and the
    properties of its image pipeline, command framing, option resolution
    and page loop.

    Conventions of the embedding.
    - C [int] is a [Z] wrapped to 32-bit two's complement by [sint];
      [unsigned] is a [Z] reduced modulo 2^32 by [u32]; [unsigned char] is
      a [Z] reduced modulo 2^8 by [u8].  Signed overflow is undefined in C;
      the wrap-around is the behaviour of the usual targets and every
      theorem that depends on an exact sum states the range it needs.
    - A heap buffer is a [list Z].  Reads and writes outside the buffer are
      undefined in C; here such a read yields 0 and such a write is
      dropped, and the theorems about buffer contents fix the length.
    - A counted [for] loop is [for_loop n body]: the body runs for
      i = 0, 1, ..., n-1 and not at all when n <= 0.
    - Output, allocation and the raster decoder are recorded as a trace of
      events; what the decoder and the allocator answer is an input. *)

From Stdlib Require Import ZArith List String Ascii DecimalString Lia Bool Floats.
From stdpp Require Import base list.

Local Open Scope Z_scope.

(** ** Machine integers *)

Definition INT_MAX : Z := 2147483647.
Definition UINT_MAX : Z := 4294967295.

Definition sint (z : Z) : Z := (z + 2 ^ 31) mod 2 ^ 32 - 2 ^ 31.
Definition u32 (z : Z) : Z := z mod 2 ^ 32.
Definition u8 (z : Z) : Z := z mod 2 ^ 8.

Definition int_add (a b : Z) : Z := sint (a + b).
Definition int_sub (a b : Z) : Z := sint (a - b).
Definition int_mul (a b : Z) : Z := sint (a * b).
(** C division and remainder truncate toward zero. *)
Definition int_div (a b : Z) : Z := sint (Z.quot a b).
Definition int_rem (a b : Z) : Z := Z.rem a b.

Definition uint_add (a b : Z) : Z := u32 (a + b).
Definition uint_sub (a b : Z) : Z := u32 (a - b).
Definition uint_mul (a b : Z) : Z := u32 (a * b).
Definition uint_div (a b : Z) : Z := Z.quot a b.

(** ** Buffers and loops *)

Definition buf_get (b : list Z) (i : Z) : Z :=
  if i <? 0 then 0 else default 0 (b !! Z.to_nat i).

Definition buf_set (b : list Z) (i v : Z) : list Z :=
  if i <? 0 then b else <[Z.to_nat i := v]> b.

Definition for_loop {S : Type} (n : Z) (body : Z -> S -> S) (s : S) : S :=
  fold_left (fun acc i => body (Z.of_nat i) acc) (seq 0 (Z.to_nat n)) s.

(** ** Floyd-Steinberg error diffusion (source lines 300-322) *)

(** [input_data[j] += d] *)
Definition buf_add (b : list Z) (j d : Z) : list Z :=
  buf_set b j (int_add (buf_get b j) d).

(** [quant_error * k / 16]: the product first, then the division. *)
Definition share (quant_error k : Z) : Z := int_div (int_mul quant_error k) 16.

(** The body of the inner loop at pixel (x, y). *)
Definition diffuse_pixel (width height y x : Z) (input_data : list Z) : list Z :=
  let here := int_add (int_mul y width) x in
  let old_pixel := buf_get input_data here in
  let new_pixel := if old_pixel <? 128 then 0 else 255 in
  let d0 := buf_set input_data here new_pixel in
  let quant_error := int_sub old_pixel new_pixel in
  let d1 :=
    if int_add x 1 <? width then
      buf_add d0 (int_add (int_mul y width) (int_add x 1)) (share quant_error 7)
    else d0 in
  let d2 :=
    if (int_sub x 1 >=? 0) && (int_add y 1 <? height) then
      buf_add d1 (int_add (int_mul (int_add y 1) width) (int_sub x 1))
        (share quant_error 3)
    else d1 in
  let d3 :=
    if int_add y 1 <? height then
      buf_add d2 (int_add (int_mul (int_add y 1) width) x) (share quant_error 5)
    else d2 in
  if (int_add x 1 <? width) && (int_add y 1 <? height) then
    buf_add d3 (int_add (int_mul (int_add y 1) width) (int_add x 1))
      (share quant_error 1)
  else d3.

(** The same step once the index arithmetic is known not to overflow. *)
Definition diffuse_pixel_flat (width height y x : Z) (input_data : list Z)
  : list Z :=
  let here := y * width + x in
  let old_pixel := buf_get input_data here in
  let new_pixel := if old_pixel <? 128 then 0 else 255 in
  let d0 := buf_set input_data here new_pixel in
  let quant_error := int_sub old_pixel new_pixel in
  let d1 :=
    if x + 1 <? width then buf_add d0 (here + 1) (share quant_error 7) else d0 in
  let d2 :=
    if (x - 1 >=? 0) && (y + 1 <? height) then
      buf_add d1 (here + width - 1) (share quant_error 3)
    else d1 in
  let d3 :=
    if y + 1 <? height then buf_add d2 (here + width) (share quant_error 5)
    else d2 in
  if (x + 1 <? width) && (y + 1 <? height) then
    buf_add d3 (here + width + 1) (share quant_error 1)
  else d3.

Definition error_diffusion (input_data : list Z) (width height : Z) : list Z :=
  for_loop height (fun y => for_loop width (fun x => diffuse_pixel width height y x))
    input_data.

(** ** Grayscale to monochrome (source lines 266-297) *)

(** A heap block as [malloc] hands it out: [None] is the null pointer, and
    [Some g] is a block whose cell [i] initially holds [g i]. *)
Definition alloc_result : Type := option (nat -> Z).

Definition fresh_block (g : nat -> Z) (cells : Z) : list Z :=
  map g (seq 0 (Z.to_nat cells)).

(** [for (i = 0; i < width * height; ++i) buffer[i] = gray_data[i];] *)
Definition load_gray (gray_data buffer : list Z) (width height : Z) : list Z :=
  for_loop (int_mul width height)
    (fun i b => buf_set b i (buf_get gray_data i)) buffer.

(** [memset(p, c, n)]: the first [n] bytes become [(unsigned char) c]. *)
Definition memset (p : list Z) (c n : Z) : list Z :=
  for_loop n (fun i b => buf_set b i (u8 c)) p.

(** [mono_data[...] &= ~(1 << (7 - (x % 8)))] when the pixel is below 128. *)
Definition clear_black_pixel (buffer : list Z) (width y x : Z) (mono_data : list Z)
  : list Z :=
  if buf_get buffer (int_add (int_mul y width) x) <? 128 then
    let at_byte :=
      int_add (int_mul y (int_div (int_add width 7) 8)) (int_div x 8) in
    let mask := Z.lnot (Z.shiftl 1 (int_sub 7 (int_rem x 8))) in
    buf_set mono_data at_byte (u8 (Z.land (buf_get mono_data at_byte) mask))
  else mono_data.

(** The packing half of [convert_gray_to_mono]: the [memset] to 0xFF and
    the two loops that clear the bits of the black pixels. *)
Definition pack_mono (buffer mono_data : list Z) (width height : Z) : list Z :=
  let filled :=
    memset mono_data 255 (int_mul (int_div (int_add width 7) 8) height) in
  for_loop height
    (fun y => for_loop width (fun x => clear_black_pixel buffer width y x))
    filled.

Definition convert_gray_to_mono (heap : alloc_result)
    (gray_data mono_data : list Z) (width height print_mode : Z) : list Z :=
  match heap with
  | None => mono_data
  | Some g =>
      let buffer := fresh_block g (int_mul width height) in
      let buffer := load_gray gray_data buffer width height in
      let buffer := error_diffusion buffer width height in
      pack_mono buffer mono_data width height
  end.

(** ** Job configuration (source lines 38-57) *)

Record print_job_config_t : Type := mk_config {
  job_id : Z;
  user : string;
  title : string;
  copies : Z;
  speed : Z;
  mediaType : Z;
  mirrorImage : Z;
  negativeImage : Z;
  rotate : Z;
  darkness : Z;
  gap_height : Z;
  gap_offset : Z;
  horizontal_offset : Z;
  vertical_offset : Z;
  print_mode : Z;
  page_width_mm : Z;
  page_height_mm : Z
}.

Definition zero_config : print_job_config_t :=
  mk_config 0 EmptyString EmptyString 0 0 0 0 0 0 0 0 0 0 0 0 0 0.

Definition set_job_id v c := let '(mk_config a b d e f g h i j k l m n o p q r) := c in
  mk_config v b d e f g h i j k l m n o p q r.
Definition set_user v c := let '(mk_config a b d e f g h i j k l m n o p q r) := c in
  mk_config a v d e f g h i j k l m n o p q r.
Definition set_title v c := let '(mk_config a b d e f g h i j k l m n o p q r) := c in
  mk_config a b v e f g h i j k l m n o p q r.
Definition set_copies v c := let '(mk_config a b d e f g h i j k l m n o p q r) := c in
  mk_config a b d v f g h i j k l m n o p q r.
Definition set_speed v c := let '(mk_config a b d e f g h i j k l m n o p q r) := c in
  mk_config a b d e v g h i j k l m n o p q r.
Definition set_mediaType v c := let '(mk_config a b d e f g h i j k l m n o p q r) := c in
  mk_config a b d e f v h i j k l m n o p q r.
Definition set_mirrorImage v c := let '(mk_config a b d e f g h i j k l m n o p q r) := c in
  mk_config a b d e f g v i j k l m n o p q r.
Definition set_negativeImage v c := let '(mk_config a b d e f g h i j k l m n o p q r) := c in
  mk_config a b d e f g h v j k l m n o p q r.
Definition set_rotate v c := let '(mk_config a b d e f g h i j k l m n o p q r) := c in
  mk_config a b d e f g h i v k l m n o p q r.
Definition set_darkness v c := let '(mk_config a b d e f g h i j k l m n o p q r) := c in
  mk_config a b d e f g h i j v l m n o p q r.
Definition set_gap_height v c := let '(mk_config a b d e f g h i j k l m n o p q r) := c in
  mk_config a b d e f g h i j k v m n o p q r.
Definition set_gap_offset v c := let '(mk_config a b d e f g h i j k l m n o p q r) := c in
  mk_config a b d e f g h i j k l v n o p q r.
Definition set_horizontal_offset v c := let '(mk_config a b d e f g h i j k l m n o p q r) := c in
  mk_config a b d e f g h i j k l m v o p q r.
Definition set_vertical_offset v c := let '(mk_config a b d e f g h i j k l m n o p q r) := c in
  mk_config a b d e f g h i j k l m n v p q r.
Definition set_print_mode v c := let '(mk_config a b d e f g h i j k l m n o p q r) := c in
  mk_config a b d e f g h i j k l m n o v q r.
Definition set_page_width_mm v c := let '(mk_config a b d e f g h i j k l m n o p q r) := c in
  mk_config a b d e f g h i j k l m n o p v r.
Definition set_page_height_mm v c := let '(mk_config a b d e f g h i j k l m n o p q r) := c in
  mk_config a b d e f g h i j k l m n o p q v.

(** ** Geometric transforms (source lines 233-263) *)

(** [bitmap[i] = 255 - bitmap[i]] over the first [width * height] bytes. *)
Definition negate_image (bitmap : list Z) (width height : Z) : list Z :=
  for_loop (uint_mul width height)
    (fun i b => buf_set b i (u8 (255 - buf_get b i))) bitmap.

(** The three assignments that exchange pixel [x] and pixel [width-1-x]
    of row [y]. *)
Definition swap_pixels (width y x : Z) (bitmap : list Z) : list Z :=
  let left := uint_add (uint_mul y width) x in
  let right := uint_add (uint_mul y width) (uint_sub (uint_sub width 1) x) in
  let temp := buf_get bitmap left in
  let b1 := buf_set bitmap left (buf_get bitmap right) in
  buf_set b1 right temp.

Definition mirror_image (bitmap : list Z) (width height : Z) : list Z :=
  for_loop height
    (fun y => for_loop (uint_div width 2) (fun x => swap_pixels width y x))
    bitmap.

(** [width] and [height] are passed by reference and come back with the
    buffer; the rotation branch is empty in the source. *)
Definition apply_image_manipulations (bitmap : list Z) (width height : Z)
    (config : print_job_config_t) : list Z * Z * Z :=
  let b1 :=
    if negativeImage config =? 0 then bitmap
    else negate_image bitmap width height in
  let b2 :=
    if mirrorImage config =? 0 then b1
    else mirror_image b1 width height in
  (b2, width, height).

(** ** Command emitter (source lines 325-341) *)

Local Open Scope string_scope.
Local Open Scope Z_scope.

Definition CR : ascii := ascii_of_nat 13.
Definition LF : ascii := ascii_of_nat 10.
Definition CRLF : string := String CR (String LF EmptyString).

(** [printf("%d", n)]: decimal digits, with a leading minus sign for a
    negative number. *)
Definition fmt_d (n : Z) : string := DecimalString.NilZero.string_of_int (Z.to_int n).

(** The bytes of a buffer as they go down the output descriptor. *)
Definition string_of_bytes (l : list Z) : string :=
  fold_right (fun b s => String (ascii_of_N (Z.to_N b)) s) EmptyString l.

(** The text commands, one definition per [printf] of the source. *)
Definition cmd_size (config : print_job_config_t) : string :=
  "SIZE " ++ fmt_d (page_width_mm config) ++ " mm," ++
  fmt_d (page_height_mm config) ++ " mm" ++ CRLF.
Definition cmd_gap (config : print_job_config_t) : string :=
  "GAP " ++ fmt_d (gap_height config) ++ " mm," ++
  fmt_d (gap_offset config) ++ " mm" ++ CRLF.
Definition cmd_direction : string := "DIRECTION 0,0" ++ CRLF.
Definition cmd_reference (config : print_job_config_t) : string :=
  "REFERENCE " ++ fmt_d (horizontal_offset config) ++ "," ++
  fmt_d (vertical_offset config) ++ CRLF.
Definition cmd_density (config : print_job_config_t) : string :=
  "DENSITY " ++ fmt_d (darkness config) ++ CRLF.
Definition cmd_speed (config : print_job_config_t) : string :=
  "SPEED " ++ fmt_d (speed config) ++ CRLF.
Definition cmd_cls : string := "CLS" ++ CRLF.
Definition cmd_bitmap (width_bytes height_pixels : Z) : string :=
  "BITMAP 0,0," ++ fmt_d width_bytes ++ "," ++ fmt_d height_pixels ++ ",1,".
Definition cmd_print (config : print_job_config_t) : string :=
  CRLF ++ "PRINT 1," ++ fmt_d (copies config) ++ CRLF.

(** The bytes that reach standard output.  The [fflush] before the raw
    [write] and the one at the end keep the three parts in program order;
    [write] sends the first [width_bytes * height_pixels] bytes. *)
Definition send_printer_commands (mono_data : list Z)
    (width_bytes height_pixels : Z) (config : print_job_config_t) : string :=
  cmd_size config ++ cmd_gap config ++ cmd_direction ++ cmd_reference config ++
  cmd_density config ++ cmd_speed config ++ cmd_cls ++
  cmd_bitmap width_bytes height_pixels ++
  string_of_bytes (take (Z.to_nat (int_mul width_bytes height_pixels)) mono_data) ++
  cmd_print config.

(** ** Option resolver (source lines 185-230) *)

Definition is_space (c : ascii) : bool :=
  let n := nat_of_ascii c in
  Nat.eqb n 32 || (Nat.leb 9 n && Nat.leb n 13).

Definition digit_of (c : ascii) : option Z :=
  let n := nat_of_ascii c in
  if Nat.leb 48 n && Nat.leb n 57 then Some (Z.of_nat n - 48) else None.

Fixpoint skip_spaces (s : string) : string :=
  match s with
  | String c rest => if is_space c then skip_spaces rest else s
  | EmptyString => s
  end.

(** Consume decimal digits; [seen] tells whether one was read. *)
Fixpoint scan_digits (s : string) (acc : Z) (seen : bool) : Z * bool * string :=
  match s with
  | String c rest =>
      match digit_of c with
      | Some d => scan_digits rest (10 * acc + d) true
      | None => (acc, seen, s)
      end
  | EmptyString => (acc, seen, s)
  end.

(** An optionally signed decimal number at the head of [s], as [atoi],
    [strtol] and the [%d] conversion read it (leading white space skipped);
    the value is stored in an [int]. *)
Definition scan_int (s : string) : option (Z * string) :=
  let s1 := skip_spaces s in
  let '(neg, s2) :=
    match s1 with
    | String "-" rest => (true, rest)
    | String "+" rest => (false, rest)
    | _ => (false, s1)
    end in
  let '(v, seen, rest) := scan_digits s2 0 false in
  if seen then Some (sint (if neg then - v else v), rest) else None.

Definition atoi (s : string) : Z :=
  match scan_int s with
  | Some (v, _) => v
  | None => 0
  end.

(** [sscanf] for formats made of ordinary characters and [%d] with two
    [int] destinations.  The result is the value returned (the number of
    assignments, or EOF = -1 when the input ends before the first
    conversion) and the two destinations, which keep their old value
    where nothing was assigned. *)
Inductive directive : Type :=
| Lit (c : ascii)
| ConvD.

Fixpoint parse_format (fmt : string) : list directive :=
  match fmt with
  | String "%" (String "d" rest) => ConvD :: parse_format rest
  | String c rest => Lit c :: parse_format rest
  | EmptyString => []
  end.

Definition EOF : Z := -1.

Fixpoint sscanf_run (fmt : list directive) (input : string) (done : list Z)
  : Z * list Z :=
  let count := Z.of_nat (length done) in
  let input_failure := (if count =? 0 then EOF else count, done) in
  match fmt with
  | [] => (count, done)
  | Lit c :: fmt' =>
      match input with
      | EmptyString => input_failure
      | String c' rest =>
          if Ascii.eqb c c' then sscanf_run fmt' rest done else (count, done)
      end
  | ConvD :: fmt' =>
      match skip_spaces input with
      | EmptyString => input_failure
      | _ =>
          match scan_int input with
          | Some (v, rest) => sscanf_run fmt' rest (done ++ [v])%list
          | None => (count, done)
          end
      end
  end.

Definition sscanf_2 (input fmt : string) (dst1 dst2 : Z) : Z * Z * Z :=
  let '(ret, got) := sscanf_run (parse_format fmt) input [] in
  (ret, nth 0 got dst1, nth 1 got dst2).

(** [(double) n] for an [int], exact in binary64. *)
Definition double_of_int (n : Z) : float :=
  if n <? 0 then PrimFloat.opp (PrimFloat.of_uint63 (Uint63.of_Z (- n)))
  else PrimFloat.of_uint63 (Uint63.of_Z n).

(** [(int) d]: the fraction is discarded (truncation toward zero).  The
    conversion of a value outside the range of [int] is undefined in C;
    here it wraps, and infinities and NaN give INT_MIN. *)
Definition int_of_double (d : float) : Z :=
  match Prim2SF d with
  | S754_zero _ => 0
  | S754_finite neg m e =>
      let mag :=
        if 0 <=? e then Z.pos m * 2 ^ e else Z.quot (Z.pos m) (2 ^ (- e)) in
      sint (if neg then - mag else mag)
  | _ => - 2 ^ 31
  end.

(** The binary64 constant that the literal [2.835] denotes. *)
Definition points_per_mm : float := 0x1.6ae147ae147aep+1%float.

(** [(int)(points / 2.835)] *)
Definition mm_of_points (points : Z) : Z :=
  int_of_double (PrimFloat.div (double_of_int points) points_per_mm).

(** [strncmp(val, "Custom", 6) == 0] *)
Definition starts_with_Custom (val : string) : bool := String.prefix "Custom" val.

(** The [PageSize] block, lines 214-229. *)
Definition resolve_page_size (val : string) (config : print_job_config_t)
  : print_job_config_t :=
  if starts_with_Custom val then
    let '(_, w, h) :=
      sscanf_2 val "Custom.%dx%d" (page_width_mm config) (page_height_mm config) in
    set_page_height_mm (mm_of_points h) (set_page_width_mm (mm_of_points w) config)
  else
    let '(ret, w, h) :=
      sscanf_2 val "w%dh%d" (page_width_mm config) (page_height_mm config) in
    let scanned := set_page_height_mm h (set_page_width_mm w config) in
    if ret =? 2 then
      set_page_height_mm (mm_of_points h) (set_page_width_mm (mm_of_points w) scanned)
    else scanned.

(** [if ((val = cupsGetOption(name, ...))) config->field = atoi(val);] *)
Definition int_option (cupsGetOption : string -> option string) (name : string)
    (store : Z -> print_job_config_t -> print_job_config_t)
    (config : print_job_config_t) : print_job_config_t :=
  match cupsGetOption name with
  | Some val => store (atoi val) config
  | None => config
  end.

(** [cupsGetOption] is the option lookup of libcups on the parsed option
    string; the PPD file name is not used by the source. *)
Definition set_pstops_options (config : print_job_config_t)
    (cupsGetOption : string -> option string) : print_job_config_t :=
  let c := int_option cupsGetOption "Darkness" set_darkness config in
  let c := int_option cupsGetOption "PrintSpeed" set_speed c in
  let c := int_option cupsGetOption "MediaType" set_mediaType c in
  let c := int_option cupsGetOption "Rotate" set_rotate c in
  let c := int_option cupsGetOption "PrintMode" set_print_mode c in
  let c := int_option cupsGetOption "Horizontal" set_horizontal_offset c in
  let c := int_option cupsGetOption "Vertical" set_vertical_offset c in
  let c := int_option cupsGetOption "GapHeight" set_gap_height c in
  let c := int_option cupsGetOption "GapOffset" set_gap_offset c in
  let c := int_option cupsGetOption "GD41Mirror" set_mirrorImage c in
  let c := int_option cupsGetOption "GD41Negative" set_negativeImage c in
  match cupsGetOption "PageSize" with
  | Some val => resolve_page_size val c
  | None => c
  end.

(** ** Page loop (source lines 138-182) *)

Record cups_page_header2_t : Type := mk_header {
  cupsWidth : Z;
  cupsHeight : Z;
  cupsBytesPerLine : Z
}.

Inductive buffer_name : Type := RasterBuffer | MonoBuffer | DiffusionBuffer.

(** What the filter does to the outside world, in program order. *)
Inductive event : Type :=
| ReadHeader (got_page : bool)
| Malloc (which : buffer_name) (bytes : Z) (ok : bool)
| ReadPixels (len ret : Z)
| Free (which : buffer_name)
| Stderr (msg : string)
| Stdout (bytes : string).

(** One page as the outside world presents it: the header the decoder
    returns, the outcome of the three allocations made for the page, the
    pixel bytes the decoder stores and the value [cupsRasterReadPixels]
    returns. *)
Record page_input : Type := mk_page {
  header : cups_page_header2_t;
  raster_alloc : alloc_result;
  pixel_data : list Z;
  read_result : Z;
  mono_alloc : alloc_result;
  diffusion_alloc : alloc_result
}.

Definition is_null (a : alloc_result) : bool :=
  match a with None => true | Some _ => false end.

(** The decoder overwrites the head of the buffer with the bytes it has. *)
Definition store_pixels (data buf : list Z) : list Z :=
  take (length buf) (data ++ drop (length data) buf)%list.

Definition size_t (z : Z) : Z := z mod 2 ^ 64.

Definition msg_raster_alloc : string :=
  "ERROR: Unable to allocate memory for raster page." ++ String LF EmptyString.
Definition msg_read_pixels : string :=
  "ERROR: Failed to read raster pixels." ++ String LF EmptyString.
Definition msg_mono_alloc : string :=
  "ERROR: Unable to allocate memory for monochrome buffer." ++ String LF EmptyString.

(** The events of [convert_gray_to_mono]: its own allocation and, when
    that succeeds, the matching [free]. *)
Definition convert_events (heap : alloc_result) (width height : Z) : list event :=
  Malloc DiffusionBuffer (size_t (size_t (int_mul width height) * 4))
    (negb (is_null heap))
  :: (if is_null heap then [] else [Free DiffusionBuffer]).

(** The body of the [while] loop after the degenerate-page test: the
    events of the page and whether the loop goes on ([false] stands for
    the [return] statements). *)
Definition page_body (config : print_job_config_t) (p : page_input)
  : list event * bool :=
  let h := header p in
  let len := uint_mul (cupsHeight h) (cupsBytesPerLine h) in
  match raster_alloc p with
  | None => ([Malloc RasterBuffer len false; Stderr msg_raster_alloc], false)
  | Some g =>
      let raster_buffer := fresh_block g len in
      if read_result p =? 0 then
        ([Malloc RasterBuffer len true; ReadPixels len (read_result p);
          Free RasterBuffer; Stderr msg_read_pixels], false)
      else
        let raster_buffer := store_pixels (pixel_data p) raster_buffer in
        let '(raster_buffer, width, height) :=
          apply_image_manipulations raster_buffer (cupsWidth h) (cupsHeight h)
            config in
        let mono_width_bytes := uint_div (uint_add width 7) 8 in
        let mono_len := uint_mul mono_width_bytes height in
        match mono_alloc p with
        | None =>
            ([Malloc RasterBuffer len true; ReadPixels len (read_result p);
              Malloc MonoBuffer mono_len false; Stderr msg_mono_alloc;
              Free RasterBuffer], false)
        | Some gm =>
            let mono_buffer := fresh_block gm mono_len in
            let mono_buffer :=
              convert_gray_to_mono (diffusion_alloc p) raster_buffer mono_buffer
                (sint width) (sint height) (print_mode config) in
            ([Malloc RasterBuffer len true; ReadPixels len (read_result p);
              Malloc MonoBuffer mono_len true]
             ++ convert_events (diffusion_alloc p) (sint width) (sint height)
             ++ [Stdout (send_printer_commands mono_buffer
                           (sint mono_width_bytes) (sint height) config);
                 Free RasterBuffer; Free MonoBuffer], true)%list
        end
  end.

Definition degenerate (h : cups_page_header2_t) : bool :=
  (cupsWidth h =? 0) || (cupsHeight h =? 0) || (cupsBytesPerLine h =? 0).

(** The raster stream is the list of pages the decoder will deliver; the
    loop ends when [cupsRasterReadHeader2] finds no further header. *)
Fixpoint process_raster_page (config : print_job_config_t)
    (raster : list page_input) : list event :=
  match raster with
  | [] => [ReadHeader false]
  | p :: rest =>
      ReadHeader true ::
      (if degenerate (header p) then process_raster_page config rest
       else
         let '(events, continue) := page_body config p in
         events ++ (if continue then process_raster_page config rest else []))%list
  end.

(** ** Entry point (source lines 68-135) *)

Record main_input : Type := mk_main_input {
  argc : Z;
  argv : list string;
  cupsGetOption : string -> option string;
  open_result : Z;
  open_reason : string;
  raster_opens : bool;
  raster_pages : list page_input
}.

Definition msg_usage : string :=
  "ERROR: rastertorw402b job-id user title copies options [file]"
  ++ String LF EmptyString.
Definition msg_open_file : string := "ERROR: Unable to open input file".
(** [perror(s)]: the text [s], a colon and a space, the system's reason
    for the failed call and a newline. *)
Definition perror_text (s reason : string) : string :=
  s ++ ": " ++ reason ++ String LF EmptyString.
Definition msg_raster_open : string :=
  "ERROR: Could not open raster stream." ++ String LF EmptyString.

Definition default_config (i : main_input) : print_job_config_t :=
  let c := set_job_id (atoi (nth 1 (argv i) EmptyString)) zero_config in
  let c := set_user (nth 2 (argv i) EmptyString) c in
  let c := set_title (nth 3 (argv i) EmptyString) c in
  let c := set_copies (atoi (nth 4 (argv i) EmptyString)) c in
  let c := set_speed 4 c in
  let c := set_darkness 12 c in
  let c := set_mediaType 1 c in
  set_gap_height 3 c.

(** The exit status and the events.  [open_result] is what [open] returns
    for the file argument and [open_reason] the system's text for its
    failure, [raster_opens] whether [cupsRasterOpen] gives a stream. *)
Definition main (i : main_input) : Z * list event :=
  if (argc i <? 6) || (argc i >? 7) then (1, [Stderr msg_usage])
  else
    let config := set_pstops_options (default_config i) (cupsGetOption i) in
    let fd := if argc i =? 7 then open_result i else 0 in
    if (argc i =? 7) && (fd <? 0)
    then (1, [Stderr (perror_text msg_open_file (open_reason i))])
    else
      (0, if raster_opens i then process_raster_page config (raster_pages i)
          else [Stderr msg_raster_open]).

(** The bytes written to standard output by a run. *)
Fixpoint stdout_of (t : list event) : string :=
  match t with
  | [] => EmptyString
  | Stdout s :: t' => s ++ stdout_of t'
  | _ :: t' => stdout_of t'
  end.

Definition is_stdout (e : event) : bool :=
  match e with Stdout _ => true | _ => false end.
Definition is_stderr (e : event) : bool :=
  match e with Stderr _ => true | _ => false end.

(** A text command of the wire protocol: the text and its CRLF. *)
Definition text_line (s : string) : string := s ++ CRLF.

(** The page of the framing example: one white pixel, every allocation
    granted, the pixel read in full. *)
Definition white_pixel_page (g gm gd : nat -> Z) : page_input :=
  mk_page (mk_header 1 1 1) (Some g) [255] 1 (Some gm) (Some gd).

(** An option table that holds the single entry [PageSize=val]. *)
Definition only_page_size (val : string) (name : string) : option string :=
  if String.eqb name "PageSize" then Some val else None.

(** A job as the scheduler starts it: six arguments, input on standard
    input, a custom page of 142x86 points (50x30 mm), two copies, one
    white pixel. *)
Definition label_job : main_input :=
  mk_main_input 6
    ["rastertorw402b"; "1"; "user"; "title"; "2"; "PageSize=Custom.142x86"]
    (only_page_size "Custom.142x86") 0 EmptyString true
    [white_pixel_page (fun _ => 0) (fun _ => 0) (fun _ => 0)].

(** The same job when [cupsRasterOpen] returns no stream. *)
Definition unreadable_stream_job : main_input :=
  mk_main_input 6
    ["rastertorw402b"; "1"; "user"; "title"; "2"; "PageSize=Custom.142x86"]
    (only_page_size "Custom.142x86") 0 EmptyString false [].

(** A one-pixel black page for which the allocation inside
    [convert_gray_to_mono] fails; the monochrome block comes from the
    allocator holding the byte 170. *)
Definition starved_page : page_input :=
  mk_page (mk_header 1 1 1) (Some (fun _ => 0)) [0] 1 (Some (fun _ => 170)) None.

(** A page of one column and two rows for which the decoder reports one
    byte read where two were asked for. *)
Definition short_page : page_input :=
  mk_page (mk_header 1 2 1) (Some (fun _ => 0)) [0] 1 (Some (fun _ => 0))
    (Some (fun _ => 0)).

(** A final value of the diffuser: exactly 0 or 255. *)
Definition quantized (v : Z) : Prop := v = 0 \/ v = 255.

(** Values far enough from the limits of [int] for one diffusion step to
    stay exact. *)
Definition headroom (v : Z) : Prop := - 2 ^ 27 <= v <= 2 ^ 27.

(** The effect of one step on the cell at column [x'] of row [y'], in the
    words of the algorithm: threshold at 128, error [old - new], and the
    four neighbours receive 7, 3, 5 and 1 sixteenths of it, each share
    divided on its own with the quotient truncated toward zero. *)
Definition diffused_value (x y x' y' old_here old_there : Z) : Z :=
  let new := if old_here <? 128 then 0 else 255 in
  let err := old_here - new in
  if (x' =? x) && (y' =? y) then new
  else if (x' =? x + 1) && (y' =? y) then old_there + Z.quot (err * 7) 16
  else if (x' =? x - 1) && (y' =? y + 1) then old_there + Z.quot (err * 3) 16
  else if (x' =? x) && (y' =? y + 1) then old_there + Z.quot (err * 5) 16
  else if (x' =? x + 1) && (y' =? y + 1) then old_there + Z.quot (err * 1) 16
  else old_there.

(** The diffusion step in the words of the algorithm, over unbounded
    integers: quantize at 128, take [err = old - new], add err*7/16 to
    the east, err*3/16 to the south-west, err*5/16 to the south and
    err*1/16 to the south-east neighbour, each when it lies inside the
    field and each quotient truncated toward zero. *)
Definition diffuse_pixel_exact (width height y x : Z) (field : list Z)
  : list Z :=
  let here := y * width + x in
  let old := buf_get field here in
  let new := if old <? 128 then 0 else 255 in
  let err := old - new in
  let add (t : list Z) (j d : Z) := buf_set t j (buf_get t j + d) in
  let f0 := buf_set field here new in
  let f1 := if x + 1 <? width then add f0 (here + 1) (Z.quot (err * 7) 16)
            else f0 in
  let f2 := if (x - 1 >=? 0) && (y + 1 <? height)
            then add f1 (here + width - 1) (Z.quot (err * 3) 16) else f1 in
  let f3 := if y + 1 <? height then add f2 (here + width) (Z.quot (err * 5) 16)
            else f2 in
  if (x + 1 <? width) && (y + 1 <? height)
  then add f3 (here + width + 1) (Z.quot (err * 1) 16) else f3.

Definition error_diffusion_exact (field : list Z) (width height : Z) : list Z :=
  for_loop height
    (fun y => for_loop width (fun x => diffuse_pixel_exact width height y x))
    field.

(** Pixel (x', y') comes before the scan position (x, y) in raster order. *)
Definition scanned (y x y' x' : Z) : bool :=
  (y' <? y) || ((y' =? y) && (x' <? x)).

(** The sixteenths of error that pixel (x', y') has received when the scan
    stands at (x, y): 7 from its west neighbour, 3 from the north-east,
    5 from the north and 1 from the north-west, once each is scanned. *)
Definition received (width y x y' x' : Z) : Z :=
  (if (1 <=? x') && scanned y x y' (x' - 1) then 7 else 0)
  + (if (x' + 1 <? width) && (1 <=? y') && scanned y x (y' - 1) (x' + 1)
     then 3 else 0)
  + (if (1 <=? y') && scanned y x (y' - 1) x' then 5 else 0)
  + (if (1 <=? x') && (1 <=? y') && scanned y x (y' - 1) (x' - 1)
     then 1 else 0).

(** The pixels in raster order: rows top to bottom, each left to right. *)
Definition raster_order (width height : Z) : list (Z * Z) :=
  flat_map (fun y => map (fun x => (Z.of_nat y, Z.of_nat x)) (seq 0 (Z.to_nat width)))
    (seq 0 (Z.to_nat height)).

(** The bit of pixel (x, y) in a packed buffer with the given row stride:
    bit [7 - x mod 8] of byte [y * stride + x / 8]. *)
Definition mono_bit (mono_data : list Z) (stride x y : Z) : bool :=
  Z.testbit (buf_get mono_data (y * stride + x / 8)) (7 - x mod 8).

(** A pixel that prints: its quantized value is below 128. *)
Definition black (buffer : list Z) (width x y : Z) : bool :=
  buf_get buffer (y * width + x) <? 128.

(** ** Loop invariants *)

(** Every cell of a buffer lies within [-B, B]. *)
Definition bounded_by (B : Z) (t : list Z) : Prop :=
  forall j, - B <= buf_get t j <= B.

(** After [k] pixels in raster order, the first [k] cells are final. *)
Definition visited_upto (W H k : Z) (b : list Z) : Prop :=
  Z.of_nat (length b) = W * H /\
  forall j, 0 <= j < k -> quantized (buf_get b j).

(** The pixels already packed when the loops stand at row [y], column [x]. *)
Definition packed_before (W y x y' x' : Z) : bool :=
  (x' <? W) && ((y' <? y) || ((y' =? y) && (x' <? x))).

Definition packed_cells (W H : Z) (buffer : list Z) (y x : Z) (m : list Z)
  : Prop :=
  Z.of_nat (length m) = ((W + 7) / 8) * H /\
  forall x' y', 0 <= x' < 8 * ((W + 7) / 8) -> 0 <= y' < H ->
    mono_bit m ((W + 7) / 8) x' y' = negb (packed_before W y x y' x' && black buffer W x' y').

(** Row [y] after [k] exchanges: the [k] outermost pixels on either side
    have changed places, everything else is as the row started. *)
Definition row_swapped_at (W H : Z) (b : list Z) (y k : Z) (t : list Z)
  : Prop :=
  length t = length b /\
  forall x' y', 0 <= x' < W -> 0 <= y' < H ->
    buf_get t (y' * W + x') =
    if (y' =? y) && ((x' <? k) || (W - 1 - k <? x'))
    then buf_get b (y' * W + (W - 1 - x'))
    else buf_get b (y' * W + x').

(** Rows above [y] are reversed, the others are as in [b]. *)
Definition rows_mirrored_at (W H : Z) (b : list Z) (y : Z) (t : list Z)
  : Prop :=
  length t = length b /\
  forall x' y', 0 <= x' < W -> 0 <= y' < H ->
    buf_get t (y' * W + x') =
    if y' <? y then buf_get b (y' * W + (W - 1 - x'))
    else buf_get b (y' * W + x').

(** The state of the field when the scan stands at (x, y): the scanned
    pixels are final, every other pixel is its original byte plus the
    shares it has received, each share at most 127/16 per sixteenth. *)
Definition diffusing_at (W H : Z) (b : list Z) (y x : Z) (t : list Z) : Prop :=
  length t = length b /\
  forall x' y', 0 <= x' < W -> 0 <= y' < H ->
    (scanned y x y' x' = true -> quantized (buf_get t (y' * W + x'))) /\
    (scanned y x y' x' = false ->
     - (127 * received W y x y' x')
     <= 16 * (buf_get t (y' * W + x') - buf_get b (y' * W + x'))
     <= 127 * received W y x y' x').

(** [cupsRasterReadPixels] belongs to libcups.  It answers with the
    number of bytes asked for when it has delivered them all and with 0
    when it has not: a read that falls short reaches the caller as 0. *)
Definition read_all_or_nothing (p : page_input) : Prop :=
  read_result p = 0 \/
  read_result p = uint_mul (cupsHeight (header p)) (cupsBytesPerLine (header p)).

(** ** Trace and buffer predicates *)

(** An intensity sample as the raster stream delivers it. *)
Definition is_byte (v : Z) : Prop := 0 <= v <= 255.

Definition buffer_name_eqb (a b : buffer_name) : bool :=
  match a, b with
  | RasterBuffer, RasterBuffer => true
  | MonoBuffer, MonoBuffer => true
  | DiffusionBuffer, DiffusionBuffer => true
  | _, _ => false
  end.

(** The heap discipline of a trace, run from the set [live] of blocks
    held: a granted [malloc] of a block that is not held adds it, a [free]
    of a held block removes it, anything else about the heap (a second
    block under a name still held, a [free] of a block not held) stops
    the run with [None]. *)
Fixpoint heap_run (live : list buffer_name) (t : list event)
  : option (list buffer_name) :=
  match t with
  | [] => Some live
  | Malloc which _ true :: t' =>
      if existsb (buffer_name_eqb which) live then None
      else heap_run (which :: live) t'
  | Free which :: t' =>
      if existsb (buffer_name_eqb which) live
      then heap_run (List.filter (fun b => negb (buffer_name_eqb which b)) live) t'
      else None
  | _ :: t' => heap_run live t'
  end.

Definition is_free (e : event) : bool :=
  match e with Free _ => true | _ => false end.
Definition is_read_header (e : event) : bool :=
  match e with ReadHeader _ => true | _ => false end.

(** After the first message on standard error a trace holds nothing but
    [free]s. *)
Fixpoint silent_after_error (t : list event) : bool :=
  match t with
  | [] => true
  | Stderr _ :: t' => forallb is_free t'
  | _ :: t' => silent_after_error t'
  end.

(** The bytes written to standard error by a run. *)
Fixpoint stderr_of (t : list event) : list string :=
  match t with
  | [] => []
  | Stderr s :: t' => s :: stderr_of t'
  | _ :: t' => stderr_of t'
  end.

(** The events of one page followed by what the loop does next. *)
Definition page_then (config : print_job_config_t) (p : page_input)
    (next : list event) : list event :=
  (fst (page_body config p) ++ (if snd (page_body config p) then next else []))%list.

(** The conversion of points to millimetres checked against the exact
    quotient 200 * p / 567 (= p / 2.835) on the points 0, ..., n - 1. *)
Definition mm_exact_below (n : Z) : bool :=
  forallb (fun k => mm_of_points (Z.of_nat k) =? 200 * Z.of_nat k / 567)
    (seq 0 (Z.to_nat n)).

(** A page the loop can print: the header is not degenerate, the two
    buffers of the page loop are granted and the pixels are read. *)
Definition page_ok (p : page_input) : bool :=
  negb (degenerate (header p)) && negb (is_null (raster_alloc p))
  && negb (read_result p =? 0) && negb (is_null (mono_alloc p)).

(** * Properties *)

(** ** Machine integers, buffers and loops *)

Lemma sint_id (z : Z) : - 2 ^ 31 <= z < 2 ^ 31 -> sint z = z.
Proof.
  intros Hz. unfold sint. rewrite Z.mod_small by lia. lia.
Qed.

Lemma u32_id (z : Z) : 0 <= z < 2 ^ 32 -> u32 z = z.
Proof. intros Hz. unfold u32. apply Z.mod_small. lia. Qed.

Lemma sint_range (z : Z) : - 2 ^ 31 <= sint z < 2 ^ 31.
Proof.
  unfold sint. pose proof (Z.mod_pos_bound (z + 2 ^ 31) (2 ^ 32)). lia.
Qed.

Lemma cell_bounds (W H x y : Z) :
  0 <= x < W -> 0 <= y < H -> 0 <= y * W + x < W * H.
Proof. intros Hx Hy. nia. Qed.

Lemma int_index (W a b : Z) :
  0 <= W -> 0 <= a -> 0 <= b -> a * W + b <= INT_MAX ->
  int_add (int_mul a W) b = a * W + b.
Proof.
  intros HW Ha Hb Hmax. unfold INT_MAX in Hmax. unfold int_add, int_mul.
  assert (0 <= a * W) by nia.
  rewrite (sint_id (a * W)) by lia. apply sint_id. lia.
Qed.

Lemma buf_get_in (b : list Z) (i : Z) :
  0 <= i < Z.of_nat (length b) -> b !! Z.to_nat i = Some (buf_get b i).
Proof.
  intros Hi. unfold buf_get.
  destruct (Z.ltb_spec i 0) as [Hneg | _]; [lia |].
  destruct (lookup_lt_is_Some_2 b (Z.to_nat i)) as [v Hv]; [lia |].
  now rewrite Hv.
Qed.

Lemma length_buf_set (b : list Z) (i v : Z) :
  length (buf_set b i v) = length b.
Proof.
  unfold buf_set. destruct (i <? 0); [reflexivity | apply length_insert].
Qed.

Lemma buf_get_set_eq (b : list Z) (i v : Z) :
  0 <= i < Z.of_nat (length b) -> buf_get (buf_set b i v) i = v.
Proof.
  intros Hi. unfold buf_get, buf_set.
  destruct (Z.ltb_spec i 0) as [Hneg | _]; [lia |].
  rewrite list_lookup_insert_eq by lia. reflexivity.
Qed.

Lemma buf_get_set_ne (b : list Z) (i j v : Z) :
  i <> j -> buf_get (buf_set b i v) j = buf_get b j.
Proof.
  intros Hij. unfold buf_get, buf_set.
  destruct (Z.ltb_spec j 0) as [Hj | Hj]; [reflexivity |].
  destruct (Z.ltb_spec i 0) as [Hi | Hi]; [reflexivity |].
  rewrite list_lookup_insert_ne by lia. reflexivity.
Qed.

Lemma buf_ext (a b : list Z) :
  length a = length b ->
  (forall i, 0 <= i < Z.of_nat (length a) -> buf_get a i = buf_get b i) ->
  a = b.
Proof.
  intros Hlen Hget. apply list_eq_same_length with (n := length a); auto.
  intros i x y Hi Hx Hy.
  pose proof (Hget (Z.of_nat i) ltac:(lia)) as Hg.
  pose proof (buf_get_in a (Z.of_nat i) ltac:(lia)) as Ha.
  pose proof (buf_get_in b (Z.of_nat i) ltac:(lia)) as Hb.
  rewrite Nat2Z.id in Ha, Hb. congruence.
Qed.

Lemma for_loop_nonpos {S : Type} (n : Z) (body : Z -> S -> S) (s : S) :
  n <= 0 -> for_loop n body s = s.
Proof.
  intros Hn. unfold for_loop. replace (Z.to_nat n) with 0%nat by lia.
  reflexivity.
Qed.

Lemma for_loop_succ {S : Type} (n : Z) (body : Z -> S -> S) (s : S) :
  0 <= n -> for_loop (n + 1) body s = body n (for_loop n body s).
Proof.
  intros Hn. unfold for_loop.
  replace (Z.to_nat (n + 1)) with (Datatypes.S (Z.to_nat n)) by lia.
  rewrite seq_S, fold_left_app. simpl. now rewrite Z2Nat.id by lia.
Qed.

(** The loop rule: an invariant that holds before the loop and is kept by
    every iteration holds when the loop ends. *)
Lemma for_loop_invariant {S : Type} (P : Z -> S -> Prop) (n : Z)
    (body : Z -> S -> S) (s : S) :
  0 <= n -> P 0 s ->
  (forall i t, 0 <= i < n -> P i t -> P (i + 1) (body i t)) ->
  P n (for_loop n body s).
Proof.
  intros Hn H0 Hstep.
  assert (Hall : forall m, 0 <= m -> m <= n -> P m (for_loop m body s)).
  { intros m Hm. pattern m. apply natlike_ind; [| | exact Hm].
    - intros _. now rewrite for_loop_nonpos by lia.
    - intros k Hk IH Hle. change (Z.succ k) with (k + 1).
      rewrite for_loop_succ by lia. apply Hstep; [lia |]. apply IH. lia. }
  apply Hall; lia.
Qed.

Ltac buf_simpl :=
  repeat first
    [ rewrite length_buf_set
    | rewrite buf_get_set_ne by lia
    | rewrite buf_get_set_eq by (rewrite ?length_buf_set; lia) ].

(** ** Error diffusion *)

Section Diffusion.
Variables W H : Z.
Hypothesis W_pos : 0 < W.
Hypothesis H_pos : 0 < H.
Hypothesis fits : W * H <= INT_MAX.

Lemma diffuse_pixel_flat_eq (x y : Z) (b : list Z) :
  0 <= x < W -> 0 <= y < H ->
  diffuse_pixel W H y x b = diffuse_pixel_flat W H y x b.
Proof.
  intros Hx Hy. pose proof (cell_bounds W H x y Hx Hy) as Hc.
  unfold INT_MAX in fits.
  assert (Hx1 : int_add x 1 = x + 1) by (apply sint_id; nia).
  assert (Hy1 : int_add y 1 = y + 1) by (apply sint_id; nia).
  assert (Hxm : int_sub x 1 = x - 1) by (apply sint_id; nia).
  unfold diffuse_pixel, diffuse_pixel_flat. rewrite Hx1, Hy1, Hxm.
  rewrite (int_index W y x) by (unfold INT_MAX; lia).
  destruct (Z.ltb_spec (x + 1) W) as [Hxw | Hxw];
    destruct (Z.ltb_spec (y + 1) H) as [Hyh | Hyh];
    destruct (Z.geb_spec (x - 1) 0) as [Hx0 | Hx0]; cbn [andb];
    rewrite ?(int_index W y (x + 1)) by (unfold INT_MAX; nia);
    rewrite ?(int_index W (y + 1) (x - 1)) by (unfold INT_MAX; nia);
    rewrite ?(int_index W (y + 1) x) by (unfold INT_MAX; nia);
    rewrite ?(int_index W (y + 1) (x + 1)) by (unfold INT_MAX; nia);
    try replace (y * W + (x + 1)) with (y * W + x + 1) by ring;
    try replace ((y + 1) * W + (x - 1)) with (y * W + x + W - 1) by ring;
    try replace ((y + 1) * W + x) with (y * W + x + W) by ring;
    try replace ((y + 1) * W + (x + 1)) with (y * W + x + W + 1) by ring;
    reflexivity.
Qed.

Lemma length_buf_add (b : list Z) (j d : Z) :
  length (buf_add b j d) = length b.
Proof. apply length_buf_set. Qed.

Lemma buf_get_add_ne (b : list Z) (i j d : Z) :
  i <> j -> buf_get (buf_add b i d) j = buf_get b j.
Proof. intros Hij. unfold buf_add. now apply buf_get_set_ne. Qed.

Lemma length_diffuse_pixel (x y : Z) (b : list Z) :
  0 <= x < W -> 0 <= y < H ->
  length (diffuse_pixel W H y x b) = length b.
Proof.
  intros Hx Hy. rewrite diffuse_pixel_flat_eq by assumption.
  unfold diffuse_pixel_flat.
  repeat match goal with
         | |- context [if ?c then _ else _] => destruct c
         end;
    rewrite ?length_buf_add; apply length_buf_set.
Qed.

(** The visited pixel becomes 0 or 255 by the threshold 128. *)
Lemma diffuse_pixel_here (x y : Z) (b : list Z) :
  0 <= x < W -> 0 <= y < H -> Z.of_nat (length b) = W * H ->
  buf_get (diffuse_pixel W H y x b) (y * W + x) =
  if buf_get b (y * W + x) <? 128 then 0 else 255.
Proof.
  intros Hx Hy Hlen. pose proof (cell_bounds W H x y Hx Hy) as Hc.
  rewrite diffuse_pixel_flat_eq by assumption. unfold diffuse_pixel_flat.
  destruct (Z.ltb_spec (x + 1) W); destruct (Z.ltb_spec (y + 1) H);
    destruct (Z.geb_spec (x - 1) 0); cbn [andb];
    rewrite ?buf_get_add_ne by lia; apply buf_get_set_eq; lia.
Qed.

(** Pixels already visited (those before (x, y) in raster order) are
    not written again. *)
Lemma diffuse_pixel_before (x y j : Z) (b : list Z) :
  0 <= x < W -> 0 <= y < H -> j < y * W + x ->
  buf_get (diffuse_pixel W H y x b) j = buf_get b j.
Proof.
  intros Hx Hy Hj.
  rewrite diffuse_pixel_flat_eq by assumption. unfold diffuse_pixel_flat.
  destruct (Z.ltb_spec (x + 1) W); destruct (Z.ltb_spec (y + 1) H);
    destruct (Z.geb_spec (x - 1) 0); cbn [andb];
    rewrite ?buf_get_add_ne by lia; apply buf_get_set_ne; lia.
Qed.

Local Abbreviation visited := (visited_upto W H).

Lemma diffuse_pixel_visited (x y : Z) (b : list Z) :
  0 <= x < W -> 0 <= y < H ->
  visited (y * W + x) b -> visited (y * W + (x + 1)) (diffuse_pixel W H y x b).
Proof.
  intros Hx Hy [Hlen Hq]. split.
  - now rewrite length_diffuse_pixel.
  - intros j Hj. destruct (Z.eq_dec j (y * W + x)) as [-> | Hne].
    + rewrite diffuse_pixel_here by assumption.
      unfold quantized. destruct (_ <? 128); auto.
    + rewrite diffuse_pixel_before by lia. apply Hq. lia.
Qed.

Lemma diffuse_row_visited (y : Z) (b : list Z) :
  0 <= y < H ->
  visited (y * W) b ->
  visited ((y + 1) * W)
    (for_loop W (fun x => diffuse_pixel W H y x) b).
Proof.
  intros Hy Hv.
  replace ((y + 1) * W) with (y * W + W) by ring.
  apply (for_loop_invariant (fun x t => visited (y * W + x) t)); [lia | |].
  - now rewrite Z.add_0_r.
  - intros x t Hx Ht. now apply diffuse_pixel_visited.
Qed.

Lemma error_diffusion_visited (b : list Z) :
  Z.of_nat (length b) = W * H -> visited (H * W) (error_diffusion b W H).
Proof.
  intros Hlen. unfold error_diffusion.
  apply (for_loop_invariant (fun y t => visited (y * W) t)); [lia | |].
  - split; [assumption | intros j Hj; lia].
  - intros y t Hy Ht. now apply diffuse_row_visited.
Qed.

Lemma share_exact (err k : Z) :
  - 2 ^ 28 <= err <= 2 ^ 28 -> 1 <= k <= 7 ->
  share err k = Z.quot (err * k) 16 /\ - 2 ^ 28 <= Z.quot (err * k) 16 <= 2 ^ 28.
Proof.
  intros He Hk. unfold share, int_div, int_mul.
  assert (Hp : - 2 ^ 31 <= err * k < 2 ^ 31) by nia.
  rewrite (sint_id (err * k)) by exact Hp.
  assert (Hq : - 2 ^ 28 <= Z.quot (err * k) 16 <= 2 ^ 28).
  { revert Hp. generalize (err * k). intros p Hp.
    Z.to_euclidean_division_equations. lia. }
  split; [apply sint_id; lia | exact Hq].
Qed.

Lemma buf_get_set_cases (t : list Z) (k v j : Z) :
  (j = k /\ buf_get (buf_set t k v) j = v) \/
  buf_get (buf_set t k v) j = buf_get t j.
Proof.
  destruct (Z.eq_dec k j) as [<- | Hne]; [| right; now apply buf_get_set_ne].
  destruct (Z_lt_ge_dec k 0) as [Hneg | Hpos].
  - right. unfold buf_set. now rewrite (proj2 (Z.ltb_lt k 0) Hneg).
  - destruct (Z_lt_ge_dec k (Z.of_nat (length t))) as [Hin | Hout].
    + left. split; [reflexivity | apply buf_get_set_eq; lia].
    + right. unfold buf_set. rewrite (proj2 (Z.ltb_ge k 0)) by lia.
      rewrite list_insert_ge by lia. reflexivity.
Qed.

(** A guarded [+=] on a buffer whose cells have room for the addend: the
    cell read back is the old cell plus the addend, other cells keep
    their value, and the room shrinks by the size of the addend. *)
Lemma guarded_add (c : bool) (t : list Z) (k d B : Z) :
  (c = true -> 0 <= k < Z.of_nat (length t)) ->
  bounded_by B t -> - 2 ^ 28 <= d <= 2 ^ 28 -> 0 <= B -> B + 2 ^ 28 < 2 ^ 31 ->
  let t' := if c then buf_add t k d else t in
  (forall j, buf_get t' j = buf_get t j + (if c && (j =? k) then d else 0)) /\
  bounded_by (B + 2 ^ 28) t' /\ length t' = length t.
Proof.
  intros Hk Hb Hd HB Hfit. destruct c; cbn [andb].
  - specialize (Hk eq_refl).
    assert (Hget : forall j, buf_get (buf_add t k d) j =
                             buf_get t j + (if j =? k then d else 0)).
    { intros j. unfold buf_add. destruct (Z.eqb_spec j k) as [-> | Hne].
      - rewrite buf_get_set_eq by lia. apply sint_id.
        pose proof (Hb k). lia.
      - rewrite buf_get_set_ne by lia. lia. }
    split; [exact Hget | split; [| apply length_buf_add]].
    intros j. rewrite Hget. pose proof (Hb j). destruct (j =? k); lia.
  - split; [intros j; lia | split; [| reflexivity]].
    intros j. pose proof (Hb j). lia.
Qed.

Lemma cell_inj (x1 y1 x2 y2 : Z) :
  0 <= x1 < W -> 0 <= x2 < W ->
  y1 * W + x1 = y2 * W + x2 -> x1 = x2 /\ y1 = y2.
Proof. intros H1 H2 Heq. assert (y1 = y2) by nia. subst. lia. Qed.

Lemma cell_eqb (x1 y1 x2 y2 k : Z) :
  0 <= x1 < W -> 0 <= x2 < W -> k = y2 * W + x2 ->
  (y1 * W + x1 =? k) = (x1 =? x2) && (y1 =? y2).
Proof.
  intros H1 H2 ->.
  destruct (Z.eqb_spec (y1 * W + x1) (y2 * W + x2)) as [Heq | Hne].
  - apply cell_inj in Heq; try assumption. destruct Heq as [-> ->].
    now rewrite !Z.eqb_refl.
  - destruct (Z.eqb_spec x1 x2) as [-> | ?]; [| reflexivity].
    destruct (Z.eqb_spec y1 y2) as [-> | ?]; [| reflexivity].
    now destruct Hne.
Qed.

(** Where the four neighbours of (x, y) lie in the buffer. *)
Lemma east_cell (x y x' y' : Z) :
  0 <= x < W -> 0 <= x' < W ->
  (x + 1 <? W) && (y' * W + x' =? y * W + x + 1) = (x' =? x + 1) && (y' =? y).
Proof.
  intros Hx Hx'. destruct (Z.ltb_spec (x + 1) W) as [Hb | Hb]; cbn [andb].
  - apply cell_eqb; [assumption | lia | ring].
  - destruct (Z.eqb_spec x' (x + 1)); [lia | reflexivity].
Qed.

Lemma south_west_cell (x y x' y' : Z) :
  0 <= x < W -> 0 <= y < H -> 0 <= x' < W -> 0 <= y' < H ->
  (x - 1 >=? 0) && (y + 1 <? H) && (y' * W + x' =? y * W + x + W - 1)
  = (x' =? x - 1) && (y' =? y + 1).
Proof.
  intros Hx Hy Hx' Hy'.
  destruct (Z.geb_spec (x - 1) 0) as [Hb | Hb];
    destruct (Z.ltb_spec (y + 1) H) as [Hb' | Hb']; cbn [andb].
  - apply cell_eqb; [assumption | lia | ring].
  - destruct (Z.eqb_spec y' (y + 1)); [lia | apply eq_sym, andb_false_r].
  - destruct (Z.eqb_spec x' (x - 1)); [lia | reflexivity].
  - destruct (Z.eqb_spec x' (x - 1)); [lia | reflexivity].
Qed.

Lemma south_cell (x y x' y' : Z) :
  0 <= x < W -> 0 <= y < H -> 0 <= x' < W -> 0 <= y' < H ->
  (y + 1 <? H) && (y' * W + x' =? y * W + x + W) = (x' =? x) && (y' =? y + 1).
Proof.
  intros Hx Hy Hx' Hy'. destruct (Z.ltb_spec (y + 1) H) as [Hb | Hb]; cbn [andb].
  - apply cell_eqb; [assumption | lia | ring].
  - destruct (Z.eqb_spec y' (y + 1)); [lia | apply eq_sym, andb_false_r].
Qed.

Lemma south_east_cell (x y x' y' : Z) :
  0 <= x < W -> 0 <= y < H -> 0 <= x' < W -> 0 <= y' < H ->
  (x + 1 <? W) && (y + 1 <? H) && (y' * W + x' =? y * W + x + W + 1)
  = (x' =? x + 1) && (y' =? y + 1).
Proof.
  intros Hx Hy Hx' Hy'.
  destruct (Z.ltb_spec (x + 1) W) as [Hb | Hb];
    destruct (Z.ltb_spec (y + 1) H) as [Hb' | Hb']; cbn [andb].
  - apply cell_eqb; [assumption | lia | ring].
  - destruct (Z.eqb_spec y' (y + 1)); [lia | apply eq_sym, andb_false_r].
  - destruct (Z.eqb_spec x' (x + 1)); [lia | reflexivity].
  - destruct (Z.eqb_spec x' (x + 1)); [lia | reflexivity].
Qed.

(** One step, cell by cell. *)
Lemma diffuse_pixel_cells (x y x' y' : Z) (b : list Z) :
  0 <= x < W -> 0 <= y < H -> 0 <= x' < W -> 0 <= y' < H ->
  Z.of_nat (length b) = W * H ->
  (forall j, headroom (buf_get b j)) ->
  buf_get (diffuse_pixel W H y x b) (y' * W + x') =
  diffused_value x y x' y' (buf_get b (y * W + x)) (buf_get b (y' * W + x')).
Proof.
  intros Hx Hy Hx' Hy' Hlen Hroom.
  pose proof (cell_bounds W H x y Hx Hy) as Hc.
  rewrite diffuse_pixel_flat_eq by assumption.
  unfold diffuse_pixel_flat, diffused_value.
  (* where the tests of the step place the cell (x', y') *)
  rewrite <- (cell_eqb x' y' x y (y * W + x)) by (assumption || reflexivity).
  (* the arithmetic of the step is exact *)
  set (i := y * W + x) in *. set (j := y' * W + x') in *.
  pose proof (Hroom i) as Hold. unfold headroom in Hold.
  set (old := buf_get b i) in *.
  set (new := if old <? 128 then 0 else 255).
  assert (Hnew : new = 0 \/ new = 255) by (subst new; destruct (old <? 128); auto).
  replace (int_sub old new) with (old - new) by (symmetry; apply sint_id; lia).
  assert (Hrange : - 2 ^ 28 <= old - new <= 2 ^ 28) by lia.
  destruct (share_exact _ 7 Hrange ltac:(lia)) as [-> B7].
  destruct (share_exact _ 3 Hrange ltac:(lia)) as [-> B3].
  destruct (share_exact _ 5 Hrange ltac:(lia)) as [-> B5].
  destruct (share_exact _ 1 Hrange ltac:(lia)) as [-> B1].
  set (q7 := Z.quot ((old - new) * 7) 16) in *.
  set (q3 := Z.quot ((old - new) * 3) 16) in *.
  set (q5 := Z.quot ((old - new) * 5) 16) in *.
  set (q1 := Z.quot ((old - new) * 1) 16) in *.
  clearbody q7 q3 q5 q1.
  (* the four guarded additions, one after the other *)
  set (d0 := buf_set b i new).
  assert (G0 : forall k, buf_get d0 k = if k =? i then new else buf_get b k).
  { intros k. subst d0. destruct (Z.eqb_spec k i) as [-> | Hne].
    - apply buf_get_set_eq. lia.
    - apply buf_get_set_ne. lia. }
  assert (R0 : bounded_by (2 ^ 27) d0).
  { intros k. rewrite G0. pose proof (Hroom k) as Hk. unfold headroom in Hk.
    destruct (k =? i); lia. }
  assert (L0 : length d0 = length b) by apply length_buf_set.
  destruct (guarded_add (x + 1 <? W) d0 (i + 1) q7 _
              ltac:(intros Hb%Z.ltb_lt; rewrite L0; nia) R0 B7
              ltac:(lia) ltac:(lia)) as (G1 & R1 & L1).
  set (d1 := if x + 1 <? W then buf_add d0 (i + 1) q7 else d0) in *.
  destruct (guarded_add ((x - 1 >=? 0) && (y + 1 <? H)) d1 (i + W - 1) q3 _
              ltac:(intros [Hb Hb']%andb_prop; apply Z.geb_le in Hb;
                    apply Z.ltb_lt in Hb'; rewrite L1, L0; nia) R1 B3
              ltac:(lia) ltac:(lia)) as (G2 & R2 & L2).
  set (d2 := if (x - 1 >=? 0) && (y + 1 <? H) then buf_add d1 (i + W - 1) q3
             else d1) in *.
  destruct (guarded_add (y + 1 <? H) d2 (i + W) q5 _
              ltac:(intros Hb%Z.ltb_lt; rewrite L2, L1, L0; nia) R2 B5
              ltac:(lia) ltac:(lia)) as (G3 & R3 & L3).
  set (d3 := if y + 1 <? H then buf_add d2 (i + W) q5 else d2) in *.
  destruct (guarded_add ((x + 1 <? W) && (y + 1 <? H)) d3 (i + W + 1) q1 _
              ltac:(intros [Hb Hb']%andb_prop; apply Z.ltb_lt in Hb;
                    apply Z.ltb_lt in Hb'; rewrite L3, L2, L1, L0; nia) R3 B1
              ltac:(lia) ltac:(lia)) as (G4 & _ & _).
  cbv zeta in G4. rewrite G4, G3, G2, G1, G0. subst i j.
  rewrite east_cell, south_west_cell, south_cell, south_east_cell by assumption.
  clear - Hx Hy Hx' Hy'.
  destruct (Z.eqb_spec (y' * W + x') (y * W + x));
    destruct (Z.eqb_spec x' x); destruct (Z.eqb_spec y' y);
    destruct (Z.eqb_spec x' (x + 1)); destruct (Z.eqb_spec x' (x - 1));
    destruct (Z.eqb_spec y' (y + 1)); cbn [andb]; lia.
Qed.

(** The two nested loops visit the pixels in raster order. *)
Lemma error_diffusion_raster_order (b : list Z) :
  error_diffusion b W H =
  fold_left (fun t '(y, x) => diffuse_pixel W H y x t) (raster_order W H) b.
Proof.
  unfold error_diffusion, raster_order, for_loop.
  generalize (seq 0 (Z.to_nat H)) as rows. intros rows. revert b.
  induction rows as [| r rows IH]; intros b; [reflexivity |].
  cbn [flat_map fold_left]. rewrite fold_left_app, IH. f_equal.
  generalize (seq 0 (Z.to_nat W)) as cols. intros cols. revert b.
  induction cols as [| c cols IHc]; intros b; [reflexivity |].
  cbn [map fold_left]. apply IHc.
Qed.

Lemma error_diffusion_length (b : list Z) :
  Z.of_nat (length b) = W * H -> length (error_diffusion b W H) = length b.
Proof.
  intros Hlen. destruct (error_diffusion_visited b Hlen) as [Hl _]. lia.
Qed.

Lemma error_diffusion_all_quantized (b : list Z) :
  Z.of_nat (length b) = W * H -> Forall quantized (error_diffusion b W H).
Proof.
  intros Hlen. destruct (error_diffusion_visited b Hlen) as [Hl Hq].
  apply Forall_lookup. intros n v Hn.
  pose proof (lookup_lt_Some _ _ _ Hn) as Hlt.
  pose proof (buf_get_in (error_diffusion b W H) (Z.of_nat n) ltac:(lia)) as Hg.
  rewrite Nat2Z.id, Hn in Hg. injection Hg as ->. apply Hq. lia.
Qed.
End Diffusion.

(** ** Error diffusion on byte fields is exact *)

Lemma scanned_step (y x y' x' : Z) :
  scanned y (x + 1) y' x' = scanned y x y' x' || ((x' =? x) && (y' =? y)).
Proof.
  unfold scanned.
  destruct (Z.ltb_spec y' y); destruct (Z.eqb_spec y' y);
    destruct (Z.ltb_spec x' (x + 1)); destruct (Z.ltb_spec x' x);
    destruct (Z.eqb_spec x' x); cbn [andb orb]; (reflexivity || lia).
Qed.

Lemma scanned_here (y x : Z) : scanned y x y x = false.
Proof.
  unfold scanned. rewrite !Z.ltb_irrefl. now rewrite andb_false_r.
Qed.

Lemma scanned_row_end (W y y' x' : Z) :
  0 <= x' < W -> scanned y W y' x' = scanned (y + 1) 0 y' x'.
Proof.
  intros Hx. unfold scanned.
  destruct (Z.ltb_spec y' y); destruct (Z.eqb_spec y' y);
    destruct (Z.ltb_spec y' (y + 1)); destruct (Z.eqb_spec y' (y + 1));
    destruct (Z.ltb_spec x' W); destruct (Z.ltb_spec x' 0);
    cbn [andb orb]; (reflexivity || lia).
Qed.

(** A share that arrives from the pixel under the scan. *)
Lemma share_arrives (g : bool) (y x b a w : Z) :
  (if g && scanned y (x + 1) b a then w else 0)
  = (if g && scanned y x b a then w else 0)
    + (if g && ((a =? x) && (b =? y)) then w else 0).
Proof.
  rewrite scanned_step. destruct g; cbn [andb]; [| reflexivity].
  destruct (Z.eqb_spec a x) as [Ha | Ha]; destruct (Z.eqb_spec b y) as [Hb | Hb];
    cbn [andb]; rewrite ?orb_false_r; try lia.
  subst a b. rewrite scanned_here. cbn [orb]. lia.
Qed.

Lemma scanned_true (y x y' x' : Z) :
  scanned y x y' x' = true -> y' < y \/ (y' = y /\ x' < x).
Proof.
  unfold scanned. destruct (Z.ltb_spec y' y); [auto |].
  destruct (Z.eqb_spec y' y); destruct (Z.ltb_spec x' x); cbn; auto;
    discriminate.
Qed.

Lemma scanned_false (y x y' x' : Z) :
  scanned y x y' x' = false -> y < y' \/ (y' = y /\ x <= x').
Proof.
  unfold scanned. destruct (Z.ltb_spec y' y); [discriminate |].
  destruct (Z.eqb_spec y' y); destruct (Z.ltb_spec x' x); cbn;
    try discriminate; intros _; lia.
Qed.

Lemma received_step (W y x y' x' : Z) :
  0 <= x < W -> 0 <= y ->
  received W y (x + 1) y' x' =
  received W y x y' x'
  + (if (x' =? x + 1) && (y' =? y) then 7 else 0)
  + (if (x' =? x - 1) && (y' =? y + 1) then 3 else 0)
  + (if (x' =? x) && (y' =? y + 1) then 5 else 0)
  + (if (x' =? x + 1) && (y' =? y + 1) then 1 else 0).
Proof.
  intros Hx Hy. unfold received. rewrite !share_arrives.
  assert (E : (1 <=? x') && ((x' - 1 =? x) && (y' =? y))
              = (x' =? x + 1) && (y' =? y)).
  { destruct (Z.leb_spec 1 x'); destruct (Z.eqb_spec (x' - 1) x);
      destruct (Z.eqb_spec x' (x + 1)); cbn [andb]; (reflexivity || lia). }
  assert (SW : (x' + 1 <? W) && (1 <=? y') && ((x' + 1 =? x) && (y' - 1 =? y))
               = (x' =? x - 1) && (y' =? y + 1)).
  { destruct (Z.ltb_spec (x' + 1) W); destruct (Z.leb_spec 1 y');
      destruct (Z.eqb_spec (x' + 1) x); destruct (Z.eqb_spec (y' - 1) y);
      destruct (Z.eqb_spec x' (x - 1)); destruct (Z.eqb_spec y' (y + 1));
      cbn [andb]; (reflexivity || lia). }
  assert (S : (1 <=? y') && ((x' =? x) && (y' - 1 =? y))
              = (x' =? x) && (y' =? y + 1)).
  { destruct (Z.leb_spec 1 y'); destruct (Z.eqb_spec x' x);
      destruct (Z.eqb_spec (y' - 1) y); destruct (Z.eqb_spec y' (y + 1));
      cbn [andb]; (reflexivity || lia). }
  assert (SE : (1 <=? x') && (1 <=? y') && ((x' - 1 =? x) && (y' - 1 =? y))
               = (x' =? x + 1) && (y' =? y + 1)).
  { destruct (Z.leb_spec 1 x'); destruct (Z.leb_spec 1 y');
      destruct (Z.eqb_spec (x' - 1) x); destruct (Z.eqb_spec (y' - 1) y);
      destruct (Z.eqb_spec x' (x + 1)); destruct (Z.eqb_spec y' (y + 1));
      cbn [andb]; (reflexivity || lia). }
  rewrite E, SW, S, SE. ring.
Qed.

Lemma received_bound (W y x y' x' : Z) : 0 <= received W y x y' x' <= 16.
Proof.
  unfold received.
  repeat match goal with
         | |- context [if ?c then _ else _] => destruct c
         end; lia.
Qed.

Lemma received_row_end (W y y' x' : Z) :
  0 <= x' < W -> received W y W y' x' = received W (y + 1) 0 y' x'.
Proof.
  intros Hx. unfold received.
  destruct (Z.leb_spec 1 x'); destruct (Z.ltb_spec (x' + 1) W);
    destruct (Z.leb_spec 1 y'); cbn [andb];
    rewrite ?(scanned_row_end W y y' (x' - 1)),
      ?(scanned_row_end W y (y' - 1) (x' + 1)),
      ?(scanned_row_end W y (y' - 1) x'),
      ?(scanned_row_end W y (y' - 1) (x' - 1)) by lia;
    reflexivity.
Qed.

Lemma buf_get_outside (t : list Z) (j : Z) :
  j < 0 \/ Z.of_nat (length t) <= j -> buf_get t j = 0.
Proof.
  intros Hj. unfold buf_get. destruct (Z.ltb_spec j 0); [reflexivity |].
  rewrite lookup_ge_None_2 by lia. reflexivity.
Qed.

Lemma cell_of_index (W H j : Z) :
  0 < W -> 0 <= j < W * H ->
  0 <= j mod W < W /\ 0 <= j / W < H /\ j = j / W * W + j mod W.
Proof.
  intros HW Hj. pose proof (Z.div_mod j W ltac:(lia)).
  pose proof (Z.mod_pos_bound j W HW).
  repeat split; try lia.
  - apply Z.div_pos; lia.
  - apply Z.div_lt_upper_bound; lia.
Qed.

Lemma buf_add_exact (t : list Z) (k d B : Z) :
  bounded_by B t -> - 2 ^ 28 <= d <= 2 ^ 28 -> 0 <= B -> B + 2 ^ 28 < 2 ^ 31 ->
  buf_add t k d = buf_set t k (buf_get t k + d).
Proof.
  intros Hb Hd HB Hfit. unfold buf_add, int_add. f_equal.
  apply sint_id. pose proof (Hb k). lia.
Qed.

Section ByteField.
Variables W H : Z.
Variable b : list Z.
Hypothesis W_pos : 0 < W.
Hypothesis H_pos : 0 < H.
Hypothesis fits : W * H <= INT_MAX.
Hypothesis b_len : Z.of_nat (length b) = W * H.
Hypothesis b_bytes : forall j, 0 <= buf_get b j <= 255.

(** With values small enough the step of the source is the exact step. *)
Lemma diffuse_pixel_exact_eq (x y : Z) (t : list Z) :
  0 <= x < W -> 0 <= y < H -> Z.of_nat (length t) = W * H ->
  bounded_by (2 ^ 27) t ->
  diffuse_pixel W H y x t = diffuse_pixel_exact W H y x t.
Proof.
  intros Hx Hy Hlen Hroom. pose proof (cell_bounds W H x y Hx Hy) as Hc.
  rewrite diffuse_pixel_flat_eq by assumption.
  unfold diffuse_pixel_flat, diffuse_pixel_exact.
  set (i := y * W + x) in *.
  pose proof (Hroom i) as Hold. set (old := buf_get t i) in *.
  set (new := if old <? 128 then 0 else 255).
  assert (Hnew : new = 0 \/ new = 255) by (subst new; destruct (old <? 128); auto).
  replace (int_sub old new) with (old - new) by (symmetry; apply sint_id; lia).
  assert (Hrange : - 2 ^ 28 <= old - new <= 2 ^ 28) by lia.
  destruct (share_exact _ 7 Hrange ltac:(lia)) as [-> B7].
  destruct (share_exact _ 3 Hrange ltac:(lia)) as [-> B3].
  destruct (share_exact _ 5 Hrange ltac:(lia)) as [-> B5].
  destruct (share_exact _ 1 Hrange ltac:(lia)) as [-> B1].
  set (q7 := Z.quot ((old - new) * 7) 16) in *.
  set (q3 := Z.quot ((old - new) * 3) 16) in *.
  set (q5 := Z.quot ((old - new) * 5) 16) in *.
  set (q1 := Z.quot ((old - new) * 1) 16) in *.
  clearbody q7 q3 q5 q1.
  set (d0 := buf_set t i new).
  assert (R0 : bounded_by (2 ^ 27) d0).
  { intros k. subst d0. pose proof (Hroom k).
    destruct (buf_get_set_cases t i new k) as [[_ ->] | ->]; lia. }
  assert (L0 : length d0 = length t) by apply length_buf_set.
  destruct (guarded_add (x + 1 <? W) d0 (i + 1) q7 _
              ltac:(intros Hb%Z.ltb_lt; rewrite L0; nia) R0 B7
              ltac:(lia) ltac:(lia)) as (_ & R1 & L1).
  rewrite (buf_add_exact d0 (i + 1) q7 _ R0 B7) in * by lia.
  set (d1 := if x + 1 <? W then buf_set d0 (i + 1) (buf_get d0 (i + 1) + q7)
             else d0) in *.
  destruct (guarded_add ((x - 1 >=? 0) && (y + 1 <? H)) d1 (i + W - 1) q3 _
              ltac:(intros [Hb Hb']%andb_prop; apply Z.geb_le in Hb;
                    apply Z.ltb_lt in Hb'; rewrite L1, L0; nia) R1 B3
              ltac:(lia) ltac:(lia)) as (_ & R2 & L2).
  rewrite (buf_add_exact d1 (i + W - 1) q3 _ R1 B3) in * by lia.
  set (d2 := if (x - 1 >=? 0) && (y + 1 <? H)
             then buf_set d1 (i + W - 1) (buf_get d1 (i + W - 1) + q3)
             else d1) in *.
  destruct (guarded_add (y + 1 <? H) d2 (i + W) q5 _
              ltac:(intros Hb%Z.ltb_lt; rewrite L2, L1, L0; nia) R2 B5
              ltac:(lia) ltac:(lia)) as (_ & R3 & L3).
  rewrite (buf_add_exact d2 (i + W) q5 _ R2 B5) in * by lia.
  set (d3 := if y + 1 <? H then buf_set d2 (i + W) (buf_get d2 (i + W) + q5)
             else d2) in *.
  rewrite (buf_add_exact d3 (i + W + 1) q1 _ R3 B1) by lia.
  reflexivity.
Qed.

Local Abbreviation diffusing := (diffusing_at W H b).

Lemma diffusing_range (y x : Z) (t : list Z) :
  diffusing y x t -> forall j, - 127 <= buf_get t j <= 382.
Proof.
  intros [Hl Hcells] j.
  destruct (Z_lt_ge_dec j 0) as [Hneg | Hpos];
    [rewrite buf_get_outside by lia; lia |].
  destruct (Z_lt_ge_dec j (W * H)) as [Hin | Hout];
    [| rewrite buf_get_outside by lia; lia].
  destruct (cell_of_index W H j W_pos ltac:(lia)) as (Hx & Hy & Hj).
  destruct (Hcells (j mod W) (j / W) Hx Hy) as [Hq Hb]. rewrite <- Hj in *.
  pose proof (received_bound W y x (j / W) (j mod W)) as Hr.
  pose proof (b_bytes j) as Ho.
  destruct (scanned y x (j / W) (j mod W)).
  - destruct (Hq eq_refl) as [-> | ->]; lia.
  - specialize (Hb eq_refl). lia.
Qed.

Lemma diffusing_room (y x : Z) (t : list Z) :
  diffusing y x t -> bounded_by (2 ^ 27) t.
Proof.
  intros Hinv j. pose proof (diffusing_range y x t Hinv j). lia.
Qed.

Lemma share_small (err k : Z) :
  - 127 <= err <= 127 -> 0 <= k ->
  - (127 * k) <= 16 * Z.quot (err * k) 16 <= 127 * k.
Proof.
  intros He Hk. assert (Hp : - (127 * k) <= err * k <= 127 * k) by nia.
  revert Hp. generalize (err * k). intros p Hp.
  Z.to_euclidean_division_equations. lia.
Qed.

Lemma diffusing_step (y x : Z) (t : list Z) :
  0 <= x < W -> 0 <= y < H ->
  diffusing y x t -> diffusing y (x + 1) (diffuse_pixel W H y x t).
Proof.
  intros Hx Hy Hinv. pose proof (diffusing_range y x t Hinv) as Hrange.
  destruct Hinv as [Hl Hcells].
  split; [rewrite length_diffuse_pixel by assumption; exact Hl |].
  intros x' y' Hx' Hy'.
  rewrite diffuse_pixel_cells; try assumption; try lia.
  2:{ intros j. pose proof (Hrange j). unfold headroom. lia. }
  rewrite scanned_step, received_step by lia.
  destruct (Hcells x' y' Hx' Hy') as [Hq Hb].
  pose proof (Hrange (y * W + x)) as Hold.
  unfold diffused_value.
  set (old := buf_get t (y * W + x)) in *.
  set (new := if old <? 128 then 0 else 255).
  assert (Hnew : quantized new) by (subst new; destruct (old <? 128); red; auto).
  assert (Herr : - 127 <= old - new <= 127).
  { subst new. destruct (Z.ltb_spec old 128); lia. }
  pose proof (share_small _ 7 Herr ltac:(lia)) as Q7.
  pose proof (share_small _ 3 Herr ltac:(lia)) as Q3.
  pose proof (share_small _ 5 Herr ltac:(lia)) as Q5.
  pose proof (share_small _ 1 Herr ltac:(lia)) as Q1.
  revert Q7 Q3 Q5 Q1.
  generalize (Z.quot ((old - new) * 7) 16) as q7.
  generalize (Z.quot ((old - new) * 3) 16) as q3.
  generalize (Z.quot ((old - new) * 5) 16) as q5.
  generalize (Z.quot ((old - new) * 1) 16) as q1.
  intros q1 q5 q3 q7 Q7 Q3 Q5 Q1.
  clear Hrange Hold Herr Hcells.
  revert Hq Hb.
  generalize (received W y x y' x') as r.
  generalize (buf_get t (y' * W + x')) as v.
  generalize (buf_get b (y' * W + x')) as o.
  intros o v r Hq Hb.
  destruct (scanned y x y' x') eqn:Hs.
  - apply scanned_true in Hs. specialize (Hq eq_refl). clear Hb.
    split; [intros _ | cbn [orb]; discriminate].
    destruct (Z.eqb_spec x' x); destruct (Z.eqb_spec y' y);
      destruct (Z.eqb_spec x' (x + 1)); destruct (Z.eqb_spec x' (x - 1));
      destruct (Z.eqb_spec y' (y + 1)); cbn [andb]; try lia; exact Hq.
  - apply scanned_false in Hs. specialize (Hb eq_refl). clear Hq.
    cbn [orb].
    destruct (Z.eqb_spec x' x); destruct (Z.eqb_spec y' y);
      destruct (Z.eqb_spec x' (x + 1)); destruct (Z.eqb_spec x' (x - 1));
      destruct (Z.eqb_spec y' (y + 1)); cbn [andb]; try lia;
      (split; [intros Ht; try discriminate; exact Hnew
              | intros Hf; try discriminate; lia]).
Qed.

Lemma diffusing_start : diffusing 0 0 b.
Proof.
  split; [reflexivity |]. intros x' y' Hx' Hy'.
  pose proof (received_bound W 0 0 y' x').
  split; [intros Hs%scanned_true; lia | intros _; lia].
Qed.

Lemma diffusing_row_end (y : Z) (t : list Z) :
  diffusing y W t -> diffusing (y + 1) 0 t.
Proof.
  intros [Hl Hcells]. split; [exact Hl |]. intros x' y' Hx' Hy'.
  rewrite <- (scanned_row_end W y y' x'), <- (received_row_end W y y' x')
    by assumption.
  now apply Hcells.
Qed.

Lemma diffusing_row (y : Z) (t : list Z) :
  0 <= y < H -> diffusing y 0 t ->
  diffusing (y + 1) 0 (for_loop W (fun x => diffuse_pixel W H y x) t) /\
  for_loop W (fun x => diffuse_pixel W H y x) t
  = for_loop W (fun x => diffuse_pixel_exact W H y x) t.
Proof.
  intros Hy Ht.
  assert (Hrow :
    diffusing y W (for_loop W (fun x => diffuse_pixel W H y x) t) /\
    for_loop W (fun x => diffuse_pixel W H y x) t
    = for_loop W (fun x => diffuse_pixel_exact W H y x) t).
  { apply (for_loop_invariant
             (fun x u => diffusing y x u /\
                         u = for_loop x (fun x => diffuse_pixel_exact W H y x) t));
      [lia | split; [assumption | reflexivity] |].
    intros x u Hx [Hu Heq]. split; [now apply diffusing_step |].
    rewrite for_loop_succ by lia. rewrite <- Heq.
    apply diffuse_pixel_exact_eq; try assumption.
    - destruct Hu as [Hl _]. lia.
    - now apply (diffusing_room y x). }
  destruct Hrow as [Hend Heq]. split; [now apply diffusing_row_end | exact Heq].
Qed.

(** On a field of bytes no sum of the run leaves the range of [int]: the
    diffuser of the source computes the exact diffusion. *)
Lemma error_diffusion_exact_eq :
  error_diffusion b W H = error_diffusion_exact b W H.
Proof.
  unfold error_diffusion, error_diffusion_exact.
  apply (for_loop_invariant
           (fun y u =>
              diffusing y 0 u /\
              u = for_loop y
                    (fun y => for_loop W (fun x => diffuse_pixel_exact W H y x))
                    b));
    [lia | split; [apply diffusing_start | reflexivity] |].
  intros y u Hy [Hu Heq]. destruct (diffusing_row y u Hy Hu) as [Hnext Hrow].
  split; [exact Hnext |].
  rewrite for_loop_succ by lia. rewrite <- Heq. exact Hrow.
Qed.
End ByteField.

Lemma bytes_get (b : list Z) :
  Forall (fun v => 0 <= v <= 255) b -> forall j, 0 <= buf_get b j <= 255.
Proof.
  intros Hb j.
  destruct (Z_lt_ge_dec j 0) as [Hneg | Hpos];
    [rewrite buf_get_outside by lia; lia |].
  destruct (Z_lt_ge_dec j (Z.of_nat (length b))) as [Hin | Hout];
    [| rewrite buf_get_outside by lia; lia].
  pose proof (buf_get_in b j ltac:(lia)) as Hg.
  exact (proj1 (Forall_lookup _ b) Hb _ _ Hg).
Qed.

(** C2.  For a field of width W > 0 and height H > 0 (one [int] per pixel,
    W * H of them, indexable by an [int]), the error diffuser keeps the
    size of the field and leaves every value exactly 0 or 255; it visits
    the pixels in raster order; and one visit, at (x, y), gives the cell
    (x', y') the value [diffused_value]: 0 or 255 by the threshold 128 at
    (x, y) itself, the old value plus err*7/16, err*3/16, err*5/16 or
    err*1/16 at the east, south-west, south and south-east neighbours that
    lie inside the field, and the old value elsewhere, with
    err = old - new and every quotient truncated toward zero.  The sums
    of a step are exact as long as the values have [headroom] in the
    [int] range, and on a field of bytes, as [convert_gray_to_mono]
    builds it, the whole run is the exact diffusion. *)
Theorem error_diffusion_floyd_steinberg (W H : Z) (b : list Z) :
  0 < W -> 0 < H -> W * H <= INT_MAX -> Z.of_nat (length b) = W * H ->
  length (error_diffusion b W H) = length b /\
  Forall quantized (error_diffusion b W H) /\
  error_diffusion b W H =
    fold_left (fun t '(y, x) => diffuse_pixel W H y x t) (raster_order W H) b /\
  (forall t x y x' y',
     0 <= x < W -> 0 <= y < H -> 0 <= x' < W -> 0 <= y' < H ->
     length t = length b -> (forall j, headroom (buf_get t j)) ->
     buf_get (diffuse_pixel W H y x t) (y' * W + x') =
     diffused_value x y x' y' (buf_get t (y * W + x)) (buf_get t (y' * W + x')))
  /\
  (Forall (fun v => 0 <= v <= 255) b ->
   error_diffusion b W H = error_diffusion_exact b W H).
Proof.
  intros HW HH Hfit Hlen. repeat split.
  - now apply error_diffusion_length.
  - now apply error_diffusion_all_quantized.
  - apply error_diffusion_raster_order.
  - intros t x y x' y' Hx Hy Hx' Hy' Ht Hroom.
    apply diffuse_pixel_cells; try assumption. lia.
  - intros Hbytes. apply error_diffusion_exact_eq; try assumption.
    now apply bytes_get.
Qed.

Lemma error_diffusion_floyd_steinberg_witness :
  Forall quantized (error_diffusion [100; 200; 50; 128; 127; 0] 3 2) /\
  buf_get (diffuse_pixel 3 2 0 1 [0; 200; 50; 128; 127; 0]) (1 * 3 + 0) = 128 - 10.
Proof.
  destruct (error_diffusion_floyd_steinberg 3 2 [100; 200; 50; 128; 127; 0])
    as (_ & Hq & _ & _ & _); [lia | lia | unfold INT_MAX; lia | reflexivity |].
  split; [exact Hq |].
  destruct (error_diffusion_floyd_steinberg 3 2 [0; 200; 50; 128; 127; 0])
    as (_ & _ & _ & Hstep & _);
    [lia | lia | unfold INT_MAX; lia | reflexivity |].
  rewrite (Hstep [0; 200; 50; 128; 127; 0] 1 0 0 1);
    [reflexivity | lia | lia | lia | lia | reflexivity |].
  intros j. unfold headroom, buf_get.
  destruct (j <? 0); [lia |].
  destruct (Z.to_nat j) as [| [| [| [| [| [| n]]]]]]; vm_compute;
    split; discriminate.
Defined.

(** ** Packing *)

Lemma testbit_clear (a k n : Z) :
  0 <= k < 8 -> 0 <= n < 8 ->
  Z.testbit (u8 (Z.land a (Z.lnot (Z.shiftl 1 k)))) n
  = Z.testbit a n && negb (n =? k).
Proof.
  intros Hk Hn. unfold u8. rewrite Z.mod_pow2_bits_low by lia.
  rewrite Z.land_spec, Z.lnot_spec by lia.
  rewrite Z.shiftl_1_l, Z.pow2_bits_eqb by lia.
  now rewrite (Z.eqb_sym k n).
Qed.

Lemma testbit_255 (n : Z) : 0 <= n < 8 -> Z.testbit 255 n = true.
Proof.
  intros Hn.
  assert (Hc : n = 0 \/ n = 1 \/ n = 2 \/ n = 3 \/ n = 4 \/ n = 5 \/ n = 6 \/ n = 7)
    by lia.
  repeat (destruct Hc as [-> | Hc]; [reflexivity |]). now subst.
Qed.

Lemma memset_spec (p : list Z) (c n : Z) :
  0 <= n <= Z.of_nat (length p) ->
  length (memset p c n) = length p /\
  forall j, 0 <= j < n -> buf_get (memset p c n) j = u8 c.
Proof.
  intros Hn. unfold memset.
  apply (for_loop_invariant
           (fun i t => length t = length p /\
                       forall j, 0 <= j < i -> buf_get t j = u8 c));
    [lia | split; [reflexivity | intros j Hj; lia] |].
  intros i t Hi [Hl Hset]. split; [now rewrite length_buf_set |].
  intros j Hj. destruct (Z.eq_dec j i) as [-> | Hne].
  - apply buf_get_set_eq. lia.
  - rewrite buf_get_set_ne by lia. apply Hset. lia.
Qed.

Section Packing.
Variables W H : Z.
Variable buffer : list Z.
Hypothesis W_nonneg : 0 <= W.
Hypothesis H_nonneg : 0 <= H.
Hypothesis W_fits : W + 7 <= INT_MAX.
Hypothesis fits : W * H <= INT_MAX.

(** The row stride of the source, [(width + 7) / 8]. *)
Local Abbreviation stride := ((W + 7) / 8).

Lemma stride_is_ceiling : W <= 8 * stride < W + 8.
Proof.
  pose proof (Z.div_mod (W + 7) 8 ltac:(lia)).
  pose proof (Z.mod_pos_bound (W + 7) 8 ltac:(lia)). lia.
Qed.

Lemma int_stride : int_div (int_add W 7) 8 = stride.
Proof.
  unfold INT_MAX in W_fits. unfold int_div, int_add.
  rewrite (sint_id (W + 7)) by lia.
  rewrite Z.quot_div_nonneg by lia. apply sint_id.
  pose proof stride_is_ceiling. lia.
Qed.

Lemma stride_area : 0 <= stride * H <= INT_MAX.
Proof.
  pose proof stride_is_ceiling as Hs.
  destruct (Z.eq_dec W 0) as [HW0 | HW0].
  - assert (stride = 0) by lia. unfold INT_MAX. nia.
  - assert (0 <= stride <= W) by lia. nia.
Qed.

Lemma byte_of_pixel (x y : Z) :
  0 <= x < 8 * stride -> 0 <= y < H ->
  0 <= x / 8 < stride /\ 0 <= y * stride + x / 8 < stride * H /\ 0 <= 7 - x mod 8 < 8.
Proof.
  intros Hx Hy. pose proof (Z.div_mod x 8 ltac:(lia)).
  pose proof (Z.mod_pos_bound x 8 ltac:(lia)).
  assert (0 <= x / 8 < stride) by lia. repeat split; try lia; nia.
Qed.

(** The statement inside the two loops touches the bit of its own pixel
    and no other. *)
Lemma clear_black_pixel_bit (x y x' y' : Z) (m : list Z) :
  0 <= x < W -> 0 <= y < H -> 0 <= x' < 8 * stride -> 0 <= y' < H ->
  Z.of_nat (length m) = stride * H ->
  mono_bit (clear_black_pixel buffer W y x m) stride x' y'
  = mono_bit m stride x' y' && negb ((x' =? x) && (y' =? y) && black buffer W x y).
Proof.
  intros Hx Hy Hx' Hy' Hlen. pose proof stride_is_ceiling as Hs.
  pose proof stride_area as Ha. unfold INT_MAX in *.
  destruct (byte_of_pixel x y ltac:(lia) Hy) as (Hq & Hb & Hk).
  destruct (byte_of_pixel x' y' Hx' Hy') as (Hq' & Hb' & Hk').
  unfold clear_black_pixel, black.
  rewrite (int_index W y x) by (unfold INT_MAX; nia).
  destruct (buf_get buffer (y * W + x) <? 128);
    [| now rewrite andb_false_r, andb_true_r].
  rewrite andb_true_r, int_stride.
  assert (Hdiv : int_div x 8 = x / 8).
  { unfold int_div. rewrite Z.quot_div_nonneg by lia. apply sint_id. lia. }
  assert (Hrem : int_sub 7 (int_rem x 8) = 7 - x mod 8).
  { unfold int_sub, int_rem. rewrite Z.rem_mod_nonneg by lia. apply sint_id. lia. }
  rewrite Hdiv, Hrem, (int_index stride y (x / 8)) by (unfold INT_MAX; lia).
  unfold mono_bit.
  destruct (Z.eq_dec (y' * stride + x' / 8) (y * stride + x / 8)) as [Heq | Hne].
  - rewrite Heq, buf_get_set_eq by lia. rewrite testbit_clear by lia.
    f_equal. f_equal.
    destruct (cell_inj stride ltac:(lia) (x' / 8) y' (x / 8) y Hq' Hq Heq)
      as [Hsq ->]. rewrite Z.eqb_refl, andb_true_r.
    pose proof (Z.div_mod x 8 ltac:(lia)). pose proof (Z.div_mod x' 8 ltac:(lia)).
    destruct (Z.eqb_spec (7 - x' mod 8) (7 - x mod 8));
      destruct (Z.eqb_spec x' x); try reflexivity; lia.
  - rewrite buf_get_set_ne by lia.
    destruct (Z.eqb_spec x' x) as [-> | _]; [| now rewrite andb_true_r].
    destruct (Z.eqb_spec y' y) as [-> | _]; [| now rewrite andb_true_r].
    now destruct Hne.
Qed.

Local Abbreviation packed_upto := (packed_cells W H buffer).

Lemma packed_upto_step (x y : Z) (m : list Z) :
  0 <= x < W -> 0 <= y < H ->
  packed_upto y x m -> packed_upto y (x + 1) (clear_black_pixel buffer W y x m).
Proof.
  intros Hx Hy [Hlen Hbits]. split.
  - unfold clear_black_pixel. destruct (_ <? 128); [| assumption].
    now rewrite length_buf_set.
  - intros x' y' Hx' Hy'.
    rewrite clear_black_pixel_bit, Hbits by assumption.
    unfold packed_before.
    destruct (Z.eqb_spec x' x); destruct (Z.eqb_spec y' y);
      destruct (Z.ltb_spec x' W); destruct (Z.ltb_spec y' y);
      destruct (Z.ltb_spec x' x); destruct (Z.ltb_spec x' (x + 1));
      try lia; cbn [andb orb negb]; subst; rewrite ?andb_true_r;
      try reflexivity; destruct (black buffer W _ _); reflexivity.
Qed.

Lemma packed_upto_row (y : Z) (m : list Z) :
  0 <= y < H ->
  packed_upto y 0 m ->
  packed_upto (y + 1) 0
    (for_loop W (fun x => clear_black_pixel buffer W y x) m).
Proof.
  intros Hy Hm.
  assert (Hend : packed_upto y W
                   (for_loop W (fun x => clear_black_pixel buffer W y x) m)).
  { apply (for_loop_invariant (fun x t => packed_upto y x t));
      [assumption | assumption |].
    intros x t Hx Ht. now apply packed_upto_step. }
  destruct Hend as [Hlen Hbits]. split; [assumption |].
  intros x' y' Hx' Hy'. rewrite Hbits by assumption. unfold packed_before.
  destruct (Z.ltb_spec x' W); destruct (Z.ltb_spec y' y);
    destruct (Z.ltb_spec y' (y + 1)); destruct (Z.eqb_spec y' y);
    destruct (Z.eqb_spec y' (y + 1)); destruct (Z.ltb_spec x' 0);
    try lia; reflexivity.
Qed.

Lemma pack_mono_upto (mono_data : list Z) :
  Z.of_nat (length mono_data) = stride * H ->
  packed_upto H 0 (pack_mono buffer mono_data W H).
Proof.
  intros Hlen. pose proof stride_area as Ha. unfold INT_MAX in Ha.
  unfold pack_mono. rewrite int_stride.
  replace (int_mul stride H) with (stride * H) by (symmetry; apply sint_id; lia).
  destruct (memset_spec mono_data 255 (stride * H) ltac:(lia)) as [Hl Hff].
  apply (for_loop_invariant (fun y t => packed_upto y 0 t)); [assumption | |].
  - split; [lia |]. intros x' y' Hx' Hy'.
    destruct (byte_of_pixel x' y' Hx' Hy') as (_ & Hb & Hk).
    unfold mono_bit. rewrite Hff by lia. change (u8 255) with 255.
    rewrite testbit_255 by lia. unfold packed_before.
    (* no pixel is packed yet *)
    destruct (Z.ltb_spec y' 0); destruct (Z.ltb_spec x' 0); try lia;
      now rewrite andb_false_r, orb_false_r, andb_false_r.
  - intros y t Hy Ht. now apply packed_upto_row.
Qed.
End Packing.

(** C3.  For a field of width W and height H the packer fills a buffer of
    row stride ceil(W/8) = (W + 7) / 8 bytes in which the bit of pixel
    (x, y), bit 7 - x mod 8 of byte y * stride + x / 8, is 0 exactly when
    the value at (x, y) is below 128, and the bits of the last byte of a
    row that lie beyond column W - 1 stay 1. *)
Theorem pack_mono_bits (W H : Z) (buffer mono_data : list Z) :
  0 <= W -> 0 <= H -> W + 7 <= INT_MAX -> W * H <= INT_MAX ->
  Z.of_nat (length mono_data) = (W + 7) / 8 * H ->
  let stride := (W + 7) / 8 in
  let packed := pack_mono buffer mono_data W H in
  W <= 8 * stride < W + 8 /\
  Z.of_nat (length packed) = stride * H /\
  (forall x y, 0 <= x < W -> 0 <= y < H ->
     (mono_bit packed stride x y = false <-> buf_get buffer (y * W + x) < 128)) /\
  (forall x y, W <= x < 8 * stride -> 0 <= y < H ->
     mono_bit packed stride x y = true).
Proof.
  intros HW HH HW7 Hfit Hlen stride packed.
  pose proof (stride_is_ceiling W) as Hs.
  destruct (pack_mono_upto W H buffer HW HH HW7 Hfit mono_data Hlen)
    as [Hl Hbits].
  split; [exact Hs | split; [exact Hl | split]].
  - intros x y Hx Hy. subst packed stride.
    rewrite Hbits by lia. unfold packed_before, black.
    destruct (Z.ltb_spec x W); [| lia]. destruct (Z.ltb_spec y H); [| lia].
    cbn [andb orb]. destruct (Z.ltb_spec (buf_get buffer (y * W + x)) 128);
      cbn [negb]; split; intros; (lia || discriminate || reflexivity).
  - intros x y Hx Hy. subst packed stride.
    rewrite Hbits by lia. unfold packed_before.
    destruct (Z.ltb_spec x W); [lia | reflexivity].
Qed.

Lemma pack_mono_bits_witness :
  mono_bit (pack_mono [0; 255; 255; 0; 0; 0; 255; 255; 0] [7; 7] 9 1) 2 3 0 = false.
Proof.
  destruct (pack_mono_bits 9 1 [0; 255; 255; 0; 0; 0; 255; 255; 0] [7; 7])
    as (_ & _ & Hbit & _);
    [lia | lia | unfold INT_MAX; lia | unfold INT_MAX; lia | reflexivity |].
  apply (Hbit 3 0); [lia | lia | reflexivity].
Defined.

(** ** Mirror *)

Lemma uint_index (W a b : Z) :
  0 <= W -> 0 <= a -> 0 <= b -> a * W + b <= UINT_MAX ->
  uint_add (uint_mul a W) b = a * W + b.
Proof.
  intros HW Ha Hb Hmax. unfold UINT_MAX in Hmax. unfold uint_add, uint_mul.
  assert (0 <= a * W) by nia.
  rewrite (u32_id (a * W)) by lia. apply u32_id. lia.
Qed.

Section Mirror.
Variables W H : Z.
Hypothesis W_pos : 0 < W.
Hypothesis H_nonneg : 0 <= H.
Hypothesis fits : W * H <= UINT_MAX.

(** One exchange, cell by cell. *)
Lemma swap_pixels_cells (x y x' y' : Z) (t : list Z) :
  0 <= x < W / 2 -> 0 <= y < H -> 0 <= x' < W -> 0 <= y' < H ->
  Z.of_nat (length t) = W * H ->
  buf_get (swap_pixels W y x t) (y' * W + x') =
  if (x' =? x) && (y' =? y) then buf_get t (y * W + (W - 1 - x))
  else if (x' =? W - 1 - x) && (y' =? y) then buf_get t (y * W + x)
  else buf_get t (y' * W + x').
Proof.
  intros Hx Hy Hx' Hy' Hlen. unfold UINT_MAX in fits.
  assert (Hxw : 0 <= x < W /\ 0 <= W - 1 - x < W /\ x <> W - 1 - x)
    by (Z.to_euclidean_division_equations; lia).
  pose proof (cell_bounds W H x y ltac:(lia) Hy) as Hl.
  pose proof (cell_bounds W H (W - 1 - x) y ltac:(lia) Hy) as Hr.
  unfold swap_pixels.
  replace (uint_sub (uint_sub W 1) x) with (W - 1 - x).
  2:{ unfold uint_sub. rewrite (u32_id (W - 1)) by nia. symmetry. apply u32_id. nia. }
  rewrite (uint_index W y x), (uint_index W y (W - 1 - x))
    by (unfold UINT_MAX; lia).
  rewrite <- (cell_eqb W W_pos x' y' x y (y * W + x))
    by (lia || reflexivity).
  rewrite <- (cell_eqb W W_pos x' y' (W - 1 - x) y (y * W + (W - 1 - x)))
    by (lia || reflexivity).
  destruct (Z.eqb_spec (y' * W + x') (y * W + x)) as [-> | Hnl].
  - rewrite buf_get_set_ne by lia. apply buf_get_set_eq. lia.
  - destruct (Z.eqb_spec (y' * W + x') (y * W + (W - 1 - x))) as [-> | Hnr].
    + apply buf_get_set_eq. rewrite length_buf_set. lia.
    + now rewrite !buf_get_set_ne by lia.
Qed.

Lemma length_swap_pixels (x y : Z) (t : list Z) :
  length (swap_pixels W y x t) = length t.
Proof. unfold swap_pixels. now rewrite !length_buf_set. Qed.

Local Abbreviation row_swapped := (row_swapped_at W H).
Local Abbreviation rows_mirrored := (rows_mirrored_at W H).

Lemma row_swapped_step (b : list Z) (y x : Z) (t : list Z) :
  Z.of_nat (length b) = W * H -> 0 <= y < H -> 0 <= x < W / 2 ->
  row_swapped b y x t -> row_swapped b y (x + 1) (swap_pixels W y x t).
Proof.
  intros Hlen Hy Hx [Hl Hcells]. split; [now rewrite length_swap_pixels |].
  intros x' y' Hx' Hy'.
  rewrite swap_pixels_cells by (assumption || congruence).
  assert (Hx2 : 2 * x + 2 <= W) by (Z.to_euclidean_division_equations; lia).
  destruct Hx as [Hx0 _].
  rewrite !Hcells by lia. rewrite Z.eqb_refl. cbn [andb].
  destruct (Z.eqb_spec x' x); destruct (Z.eqb_spec y' y);
    destruct (Z.eqb_spec x' (W - 1 - x));
    destruct (Z.ltb_spec x' x); destruct (Z.ltb_spec (W - 1 - x) x');
    destruct (Z.ltb_spec x' (x + 1)); destruct (Z.ltb_spec (W - 1 - (x + 1)) x');
    destruct (Z.ltb_spec (W - 1 - x) x);
    destruct (Z.ltb_spec (W - 1 - x) (W - 1 - x));
    destruct (Z.ltb_spec x x); try lia; cbn [andb orb]; subst;
    rewrite ?Z.ltb_irrefl; cbn [andb orb];
    try reflexivity; f_equal; lia.
Qed.

Lemma rows_mirrored_step (b : list Z) (y : Z) (t : list Z) :
  Z.of_nat (length b) = W * H -> 0 <= y < H ->
  rows_mirrored b y t ->
  rows_mirrored b (y + 1) (for_loop (uint_div W 2) (fun x => swap_pixels W y x) t).
Proof.
  intros Hlen Hy [Hl Hcells].
  assert (Hhalf : uint_div W 2 = W / 2)
    by (unfold uint_div; apply Z.quot_div_nonneg; lia).
  rewrite Hhalf.
  assert (Hrow : row_swapped t y (W / 2)
                   (for_loop (W / 2) (fun x => swap_pixels W y x) t)).
  { apply (for_loop_invariant (fun k u => row_swapped t y k u)).
    - apply Z.div_pos; lia.
    - split; [reflexivity |]. intros x' y' Hx' Hy'.
      destruct (Z.eqb_spec y' y); destruct (Z.ltb_spec x' 0);
        destruct (Z.ltb_spec (W - 1 - 0) x'); try lia; reflexivity.
    - intros x u Hx Hu. apply row_swapped_step; (lia || assumption). }
  destruct Hrow as [Hl' Hrow]. split; [congruence |].
  intros x' y' Hx' Hy'. rewrite Hrow by lia.
  destruct (Z.eqb_spec y' y) as [-> | Hne]; cbn [andb].
  - destruct (Z.ltb_spec y (y + 1)); [| lia].
    rewrite !Hcells by lia. rewrite Z.ltb_irrefl.
    destruct (Z.ltb_spec x' (W / 2)); destruct (Z.ltb_spec (W - 1 - W / 2) x');
      cbn [orb]; try reflexivity.
    f_equal. Z.to_euclidean_division_equations. lia.
  - rewrite Hcells by lia.
    destruct (Z.ltb_spec y' y); destruct (Z.ltb_spec y' (y + 1)); try lia;
      reflexivity.
Qed.

Lemma mirror_image_cells (b : list Z) :
  Z.of_nat (length b) = W * H ->
  length (mirror_image b W H) = length b /\
  forall x y, 0 <= x < W -> 0 <= y < H ->
    buf_get (mirror_image b W H) (y * W + x) = buf_get b (y * W + (W - 1 - x)).
Proof.
  intros Hlen. unfold mirror_image.
  assert (Hall : rows_mirrored b H
                   (for_loop H
                      (fun y => for_loop (uint_div W 2) (fun x => swap_pixels W y x))
                      b)).
  { apply (for_loop_invariant (fun y t => rows_mirrored b y t)); [assumption | |].
    - split; [reflexivity |]. intros x' y' Hx' Hy'.
      destruct (Z.ltb_spec y' 0); [lia | reflexivity].
    - intros y t Hy Ht. now apply rows_mirrored_step. }
  destruct Hall as [Hl Hcells]. split; [assumption |].
  intros x y Hx Hy. rewrite Hcells by assumption.
  destruct (Z.ltb_spec y H); [reflexivity | lia].
Qed.

Lemma mirror_image_twice (b : list Z) :
  Z.of_nat (length b) = W * H ->
  mirror_image (mirror_image b W H) W H = b.
Proof.
  intros Hlen.
  destruct (mirror_image_cells b Hlen) as [Hl1 Hc1].
  destruct (mirror_image_cells (mirror_image b W H) ltac:(lia)) as [Hl2 Hc2].
  apply buf_ext; [congruence |].
  intros i Hi. rewrite Hl2, Hl1 in Hi.
  pose proof (Z.div_mod i W ltac:(lia)) as Hdm.
  pose proof (Z.mod_pos_bound i W W_pos) as Hm.
  assert (Hrow : 0 <= i / W < H).
  { split; [apply Z.div_pos; lia |]. apply Z.div_lt_upper_bound; lia. }
  replace i with (i / W * W + i mod W) by lia.
  rewrite Hc2, Hc1 by lia. f_equal. lia.
Qed.
End Mirror.

(** C8.  With the mirror flag set (and the negative flag clear) the
    transform keeps width, height and buffer size and reverses every row:
    pixel x of a row is the old pixel W-1-x, so x and W-1-x change places
    for x in [0, W/2) and the middle pixel of an odd row stays; applied
    twice it gives the buffer back exactly. *)
Theorem mirror_reverses_rows (W H : Z) (bitmap : list Z)
    (config : print_job_config_t) :
  0 < W -> 0 <= H -> W * H <= UINT_MAX -> Z.of_nat (length bitmap) = W * H ->
  mirrorImage config <> 0 -> negativeImage config = 0 ->
  let '(flipped, w', h') := apply_image_manipulations bitmap W H config in
  w' = W /\ h' = H /\ length flipped = length bitmap /\
  (forall x y, 0 <= x < W -> 0 <= y < H ->
     buf_get flipped (y * W + x) = buf_get bitmap (y * W + (W - 1 - x))) /\
  (forall y, 0 <= y < H -> W mod 2 = 1 ->
     buf_get flipped (y * W + W / 2) = buf_get bitmap (y * W + W / 2)) /\
  fst (fst (apply_image_manipulations flipped W H config)) = bitmap.
Proof.
  intros HW HH Hfit Hlen Hmirror Hneg. unfold apply_image_manipulations.
  rewrite Hneg, Z.eqb_refl.
  destruct (Z.eqb_spec (mirrorImage config) 0) as [Hz | _]; [contradiction |].
  destruct (mirror_image_cells W H HW HH Hfit bitmap Hlen) as [Hl Hcells].
  repeat split; try assumption.
  - intros y Hy Hodd. rewrite Hcells.
    + f_equal. f_equal. Z.to_euclidean_division_equations. lia.
    + Z.to_euclidean_division_equations. lia.
    + assumption.
  - cbn [fst]. now apply mirror_image_twice.
Qed.

Lemma mirror_reverses_rows_witness :
  let config := set_mirrorImage 1 zero_config in
  let once := fst (fst (apply_image_manipulations [1; 2; 3; 4; 5; 6] 3 2 config)) in
  buf_get once (1 * 3 + 0) = 6 /\
  fst (fst (apply_image_manipulations once 3 2 config)) = [1; 2; 3; 4; 5; 6].
Proof.
  intros config once.
  pose proof (mirror_reverses_rows 3 2 [1; 2; 3; 4; 5; 6] config
                ltac:(lia) ltac:(lia) ltac:(unfold UINT_MAX; lia)
                ltac:(reflexivity) ltac:(discriminate) ltac:(reflexivity))
    as Hm.
  subst once.
  destruct (apply_image_manipulations [1; 2; 3; 4; 5; 6] 3 2 config)
    as [[flipped w'] h'].
  destruct Hm as (_ & _ & _ & Hcells & _ & Htwice). cbn [fst]. split.
  - rewrite (Hcells 0 1) by lia. reflexivity.
  - exact Htwice.
Defined.

(** ** Print mode *)

(** C10.  The packed buffer does not depend on the print mode: two
    conversions that differ only in [print_mode] give the same buffer,
    whatever the allocator answers, and so does a whole job. *)
Theorem print_mode_independent (heap : alloc_result)
    (gray_data mono_data : list Z) (width height mode1 mode2 : Z)
    (config : print_job_config_t) (raster : list page_input) :
  convert_gray_to_mono heap gray_data mono_data width height mode1
  = convert_gray_to_mono heap gray_data mono_data width height mode2 /\
  process_raster_page (set_print_mode mode1 config) raster
  = process_raster_page (set_print_mode mode2 config) raster.
Proof.
  split; [reflexivity |].
  destruct config. induction raster as [| p rest IH]; [reflexivity |].
  cbn [process_raster_page]. rewrite IH. reflexivity.
Qed.

(** ** Command framing *)

Lemma string_app_assoc (a b c : string) : ((a ++ b) ++ c = a ++ (b ++ c))%string.
Proof. induction a as [| ch a IH]; cbn; [reflexivity | now rewrite IH]. Qed.

Lemma string_app_nil_r (a : string) : (a ++ "" = a)%string.
Proof. induction a as [| ch a IH]; cbn; [reflexivity | now rewrite IH]. Qed.

(** The emitter writes seven CRLF-terminated lines, the BITMAP header with
    the payload right behind it, a CRLF and the PRINT line. *)
Lemma send_printer_commands_lines (mono_data : list Z)
    (width_bytes height_pixels : Z) (config : print_job_config_t) :
  send_printer_commands mono_data width_bytes height_pixels config =
  (text_line ("SIZE " ++ fmt_d (page_width_mm config) ++ " mm,"
              ++ fmt_d (page_height_mm config) ++ " mm")
   ++ text_line ("GAP " ++ fmt_d (gap_height config) ++ " mm,"
                 ++ fmt_d (gap_offset config) ++ " mm")
   ++ text_line "DIRECTION 0,0"
   ++ text_line ("REFERENCE " ++ fmt_d (horizontal_offset config) ++ ","
                 ++ fmt_d (vertical_offset config))
   ++ text_line ("DENSITY " ++ fmt_d (darkness config))
   ++ text_line ("SPEED " ++ fmt_d (speed config))
   ++ text_line "CLS"
   ++ ("BITMAP 0,0," ++ fmt_d width_bytes ++ "," ++ fmt_d height_pixels
       ++ ",1,")
   ++ string_of_bytes
        (take (Z.to_nat (int_mul width_bytes height_pixels)) mono_data)
   ++ CRLF
   ++ text_line ("PRINT 1," ++ fmt_d (copies config)))%string.
Proof.
  unfold send_printer_commands, cmd_size, cmd_gap, cmd_direction,
    cmd_reference, cmd_density, cmd_speed, cmd_cls, cmd_bitmap, cmd_print,
    text_line.
  repeat rewrite string_app_assoc. reflexivity.
Qed.

(** C1.  A 1x1 white page under the default settings (speed 4, darkness
    12, gap height 3, offsets 0, page 50x30 mm, no negative) puts on
    standard output exactly the seven CRLF-terminated lines, then
    [BITMAP 0,0,1,1,1,] with the byte 0xFF right behind it, then CRLF and
    [PRINT 1,<copies>] with its CRLF; and for every page and
    configuration the emitter writes its commands in this order, each
    text line ended by CRLF. *)
Theorem framing_exact (config : print_job_config_t) (g gm gd : nat -> Z) :
  speed config = 4 -> darkness config = 12 -> gap_height config = 3 ->
  gap_offset config = 0 -> horizontal_offset config = 0 ->
  vertical_offset config = 0 -> page_width_mm config = 50 ->
  page_height_mm config = 30 -> negativeImage config = 0 ->
  stdout_of (process_raster_page config [white_pixel_page g gm gd]) =
  (text_line "SIZE 50 mm,30 mm" ++ text_line "GAP 3 mm,0 mm"
   ++ text_line "DIRECTION 0,0" ++ text_line "REFERENCE 0,0"
   ++ text_line "DENSITY 12" ++ text_line "SPEED 4" ++ text_line "CLS"
   ++ "BITMAP 0,0,1,1,1," ++ String (ascii_of_nat 255) EmptyString
   ++ CRLF ++ text_line ("PRINT 1," ++ fmt_d (copies config)))%string
  /\
  (forall mono_data width_bytes height_pixels (c : print_job_config_t),
     send_printer_commands mono_data width_bytes height_pixels c =
     (text_line ("SIZE " ++ fmt_d (page_width_mm c) ++ " mm,"
                 ++ fmt_d (page_height_mm c) ++ " mm")
      ++ text_line ("GAP " ++ fmt_d (gap_height c) ++ " mm,"
                    ++ fmt_d (gap_offset c) ++ " mm")
      ++ text_line "DIRECTION 0,0"
      ++ text_line ("REFERENCE " ++ fmt_d (horizontal_offset c) ++ ","
                    ++ fmt_d (vertical_offset c))
      ++ text_line ("DENSITY " ++ fmt_d (darkness c))
      ++ text_line ("SPEED " ++ fmt_d (speed c))
      ++ text_line "CLS"
      ++ ("BITMAP 0,0," ++ fmt_d width_bytes ++ "," ++ fmt_d height_pixels
          ++ ",1,")
      ++ string_of_bytes
           (take (Z.to_nat (int_mul width_bytes height_pixels)) mono_data)
      ++ CRLF
      ++ text_line ("PRINT 1," ++ fmt_d (copies c)))%string).
Proof.
  intros Hs Hd Hg Ho Hh Hv Hpw Hph Hneg.
  split; [| intros; apply send_printer_commands_lines].
  assert (Hmono :
    forall b w h, apply_image_manipulations [255] 1 1 config = (b, w, h) ->
      convert_gray_to_mono (Some gd) b [gm 0%nat] (sint w) (sint h)
        (print_mode config) = [255] /\ w = 1 /\ h = 1).
  { intros b w h. unfold apply_image_manipulations. rewrite Hneg.
    cbn [Z.eqb]. destruct (mirrorImage config =? 0);
      intros [= <- <- <-]; repeat split. }
  cbn [process_raster_page white_pixel_page header degenerate cupsWidth
         cupsHeight cupsBytesPerLine Z.eqb orb].
  unfold page_body.
  cbn [white_pixel_page header raster_alloc read_result mono_alloc
         diffusion_alloc pixel_data cupsWidth cupsHeight cupsBytesPerLine
         Z.eqb].
  change (store_pixels [255] (fresh_block g (uint_mul 1 1))) with [255].
  destruct (apply_image_manipulations [255] 1 1 config) as [[b w] h] eqn:Hrun.
  destruct (Hmono b w h eq_refl) as (Hconv & -> & ->).
  change (fresh_block gm (uint_mul (uint_div (uint_add 1 7) 8) 1))
    with [gm 0%nat].
  rewrite Hconv.
  cbn [app stdout_of convert_events is_null negb].
  rewrite string_app_nil_r.
  rewrite send_printer_commands_lines, Hs, Hd, Hg, Ho, Hh, Hv, Hpw, Hph.
  reflexivity.
Qed.

Lemma framing_exact_witness :
  stdout_of (snd (main label_job)) =
  (text_line "SIZE 50 mm,30 mm" ++ text_line "GAP 3 mm,0 mm"
   ++ text_line "DIRECTION 0,0" ++ text_line "REFERENCE 0,0"
   ++ text_line "DENSITY 12" ++ text_line "SPEED 4" ++ text_line "CLS"
   ++ "BITMAP 0,0,1,1,1," ++ String (ascii_of_nat 255) EmptyString
   ++ CRLF ++ text_line "PRINT 1,2")%string.
Proof.
  change (snd (main label_job)) with
    (process_raster_page
       (set_pstops_options (default_config label_job) (cupsGetOption label_job))
       [white_pixel_page (fun _ => 0) (fun _ => 0) (fun _ => 0)]).
  apply (framing_exact
           (set_pstops_options (default_config label_job)
              (cupsGetOption label_job))
           (fun _ => 0) (fun _ => 0) (fun _ => 0)); reflexivity.
Defined.

(** ** Page loop *)

(** C6.  A page whose header has width, height or bytes-per-line zero
    leaves one event, the header read: no allocation, no pixel read, no
    output, no message; the loop goes on with the next header. *)
Theorem degenerate_page_skipped (config : print_job_config_t)
    (p : page_input) (rest : list page_input) :
  cupsWidth (header p) = 0 \/ cupsHeight (header p) = 0 \/
  cupsBytesPerLine (header p) = 0 ->
  process_raster_page config (p :: rest)
  = ReadHeader true :: process_raster_page config rest /\
  stdout_of (process_raster_page config (p :: rest))
  = stdout_of (process_raster_page config rest).
Proof.
  intros Hzero.
  assert (Hdeg : degenerate (header p) = true).
  { unfold degenerate. destruct Hzero as [-> | [-> | ->]]; cbn [Z.eqb orb];
      rewrite ?orb_true_r; reflexivity. }
  cbn [process_raster_page]. rewrite Hdeg. split; reflexivity.
Qed.

Lemma degenerate_page_skipped_witness :
  process_raster_page zero_config
    [mk_page (mk_header 0 5 5) None [] 0 None None; starved_page]
  = ReadHeader true :: process_raster_page zero_config [starved_page].
Proof.
  apply (degenerate_page_skipped zero_config
           (mk_page (mk_header 0 5 5) None [] 0 None None) [starved_page]).
  left. reflexivity.
Defined.

(** The first allocation of a page: failure is reported and ends the job. *)
Lemma raster_alloc_failure (config : print_job_config_t) (p : page_input)
    (rest : list page_input) :
  degenerate (header p) = false -> raster_alloc p = None ->
  process_raster_page config (p :: rest) =
  [ReadHeader true;
   Malloc RasterBuffer
     (uint_mul (cupsHeight (header p)) (cupsBytesPerLine (header p))) false;
   Stderr msg_raster_alloc].
Proof.
  intros Hdeg Hnull. cbn [process_raster_page]. rewrite Hdeg.
  unfold page_body. rewrite Hnull. reflexivity.
Qed.

(** The second allocation: failure is reported, the raster buffer is
    released and the job ends. *)
Lemma mono_alloc_failure (config : print_job_config_t) (p : page_input)
    (rest : list page_input) (g : nat -> Z) :
  degenerate (header p) = false -> raster_alloc p = Some g ->
  read_result p <> 0 -> mono_alloc p = None ->
  exists len mono_len,
    process_raster_page config (p :: rest) =
    [ReadHeader true; Malloc RasterBuffer len true;
     ReadPixels len (read_result p); Malloc MonoBuffer mono_len false;
     Stderr msg_mono_alloc; Free RasterBuffer].
Proof.
  intros Hdeg Hg Hread Hnull. cbn [process_raster_page]. rewrite Hdeg.
  unfold page_body. rewrite Hg, Hnull.
  destruct (Z.eqb_spec (read_result p) 0) as [Hz | _]; [contradiction |].
  destruct (apply_image_manipulations _ _ _ _) as [[b w] h].
  eexists _, _. reflexivity.
Qed.

(** C5 (the code departs from the specification).  When the allocation inside
    [convert_gray_to_mono] fails nothing is reported, the BITMAP command
    goes out with the monochrome block as the allocator left it (here the
    byte 170), and the loop asks for the next header. *)
Theorem diffusion_alloc_failure_goes_on (config : print_job_config_t) :
  process_raster_page config [starved_page] =
  [ReadHeader true; Malloc RasterBuffer 1 true; ReadPixels 1 1;
   Malloc MonoBuffer 1 true; Malloc DiffusionBuffer 4 false;
   Stdout (send_printer_commands [170] 1 1 config);
   Free RasterBuffer; Free MonoBuffer; ReadHeader false].
Proof.
  cbn [process_raster_page starved_page header degenerate cupsWidth
         cupsHeight cupsBytesPerLine Z.eqb orb].
  unfold page_body, apply_image_manipulations.
  destruct (negativeImage config =? 0); destruct (mirrorImage config =? 0);
    reflexivity.
Qed.

(** A read that [cupsRasterReadPixels] answers with 0: the raster buffer
    is released, the failure is reported and the loop is left. *)
Lemma failed_read_aborts (config : print_job_config_t) (p : page_input)
    (rest : list page_input) (g : nat -> Z) :
  degenerate (header p) = false -> raster_alloc p = Some g ->
  read_result p = 0 ->
  process_raster_page config (p :: rest) =
  [ReadHeader true;
   Malloc RasterBuffer
     (uint_mul (cupsHeight (header p)) (cupsBytesPerLine (header p))) true;
   ReadPixels
     (uint_mul (cupsHeight (header p)) (cupsBytesPerLine (header p))) 0;
   Free RasterBuffer; Stderr msg_read_pixels].
Proof.
  intros Hdeg Hg Hread. cbn [process_raster_page]. rewrite Hdeg.
  unfold page_body. rewrite Hg, Hread. reflexivity.
Qed.

(** C7.  When the read of a page's pixels delivers fewer bytes than the
    height x bytes-per-line asked for, the job is aborted: the raster
    buffer is released, the failure is reported on standard error,
    nothing goes to standard output for the page and no further header
    is read.  The decoder is the one of libcups, which answers a read
    that falls short with 0. *)
Theorem short_read_aborts (config : print_job_config_t) (p : page_input)
    (rest : list page_input) (g : nat -> Z) :
  degenerate (header p) = false -> raster_alloc p = Some g ->
  read_all_or_nothing p ->
  read_result p
  < uint_mul (cupsHeight (header p)) (cupsBytesPerLine (header p)) ->
  process_raster_page config (p :: rest) =
  [ReadHeader true;
   Malloc RasterBuffer
     (uint_mul (cupsHeight (header p)) (cupsBytesPerLine (header p))) true;
   ReadPixels
     (uint_mul (cupsHeight (header p)) (cupsBytesPerLine (header p)))
     (read_result p);
   Free RasterBuffer; Stderr msg_read_pixels] /\
  stdout_of (process_raster_page config (p :: rest)) = EmptyString /\
  stderr_of (process_raster_page config (p :: rest)) = [msg_read_pixels].
Proof.
  intros Hdeg Hg Hdecoder Hshort.
  assert (Hzero : read_result p = 0) by (destruct Hdecoder; [assumption | lia]).
  rewrite (failed_read_aborts config p rest g Hdeg Hg Hzero), Hzero.
  repeat split.
Qed.

Lemma short_read_aborts_witness :
  process_raster_page zero_config
    [mk_page (mk_header 1 2 1) (Some (fun _ => 0)) [0] 0 (Some (fun _ => 0))
       (Some (fun _ => 0)); starved_page]
  = [ReadHeader true; Malloc RasterBuffer 2 true; ReadPixels 2 0;
     Free RasterBuffer; Stderr msg_read_pixels].
Proof.
  apply (short_read_aborts zero_config
           (mk_page (mk_header 1 2 1) (Some (fun _ => 0)) [0] 0
              (Some (fun _ => 0)) (Some (fun _ => 0)))
           [starved_page] (fun _ => 0));
    [reflexivity | reflexivity | left; reflexivity | reflexivity].
Defined.

(** ** Exit status *)

Lemma main_usage_error (i : main_input) :
  argc i < 6 \/ 7 < argc i -> main i = (1, [Stderr msg_usage]).
Proof.
  intros Hargc. unfold main.
  destruct (Z.ltb_spec (argc i) 6); destruct (Z.gtb_spec (argc i) 7);
    cbn [orb]; (reflexivity || lia).
Qed.

Lemma main_open_error (i : main_input) :
  argc i = 7 -> open_result i < 0 ->
  main i = (1, [Stderr (perror_text msg_open_file (open_reason i))]).
Proof.
  intros Hargc Hfd. unfold main. rewrite Hargc.
  change (7 <? 6) with false. change (7 >? 7) with false.
  change (7 =? 7) with true. cbn [orb andb].
  destruct (Z.ltb_spec (open_result i) 0); [reflexivity | lia].
Qed.

(** Past the two early exits the status is 0, whatever happens to the
    raster stream and to the pages. *)
Lemma main_exit_zero (i : main_input) :
  6 <= argc i <= 7 -> (argc i = 7 -> 0 <= open_result i) -> fst (main i) = 0.
Proof.
  intros Hargc Hfd. unfold main.
  destruct (Z.ltb_spec (argc i) 6); [lia |].
  destruct (Z.gtb_spec (argc i) 7); [lia |]. cbn [orb].
  destruct (Z.eqb_spec (argc i) 7) as [H7 | H7]; cbn [andb]; [| reflexivity].
  destruct (Z.ltb_spec (open_result i) 0); [lia | reflexivity].
Qed.

(** C4 (the code departs from the specification).  When [cupsRasterOpen] gives no
    stream the message goes to standard error and the exit status is 0,
    not 1. *)
Theorem raster_open_failure_exits_zero :
  main unreadable_stream_job = (0, [Stderr msg_raster_open]).
Proof. reflexivity. Qed.

(** ** Page size *)

Lemma page_size_custom :
  let c := set_pstops_options zero_config (only_page_size "Custom.200x100") in
  page_width_mm c = 70 /\ page_height_mm c = 35.
Proof. split; reflexivity. Qed.

Lemma page_size_points :
  let c := set_pstops_options zero_config (only_page_size "w200h100") in
  page_width_mm c = 70 /\ page_height_mm c = 35.
Proof. split; reflexivity. Qed.

(** A value that begins neither with [Custom] nor with [w] changes
    nothing. *)
Lemma page_size_unrecognized (val : string) (config : print_job_config_t) :
  starts_with_Custom val = false ->
  (forall rest, val <> String "w" rest) ->
  resolve_page_size val config = config.
Proof.
  intros Hcustom Hw. unfold resolve_page_size. rewrite Hcustom.
  assert (Hscan : sscanf_2 val "w%dh%d" (page_width_mm config)
                    (page_height_mm config)
                  = (if (val =? "")%string then EOF else 0,
                     page_width_mm config, page_height_mm config)).
  { destruct val as [| ch val]; [reflexivity |].
    unfold sscanf_2. cbn [parse_format sscanf_run length Z.of_nat].
    destruct (Ascii.eqb_spec "w"%char ch) as [<- | _]; [| reflexivity].
    now destruct (Hw val). }
  rewrite Hscan. destruct config. destruct (val =? "")%string; reflexivity.
Qed.

(** C9 (the code departs from the specification).  A malformed value does not
    leave the page size at zero: after [Custom.200] the width is 70 mm,
    and after [w200] it is 200, the points as scanned. *)
Theorem page_size_malformed :
  (let c := set_pstops_options zero_config (only_page_size "Custom.200") in
   page_width_mm c = 70 /\ page_height_mm c = 0) /\
  (let c := set_pstops_options zero_config (only_page_size "w200") in
   page_width_mm c = 200 /\ page_height_mm c = 0).
Proof. repeat split. Qed.

(** * Further properties *)

(** ** Loops *)

Lemma for_loop_preserves {S : Type} (P : S -> Prop) (n : Z)
    (body : Z -> S -> S) (s : S) :
  P s -> (forall i t, 0 <= i < n -> P t -> P (body i t)) ->
  P (for_loop n body s).
Proof.
  intros Hs Hstep. destruct (Z_le_gt_dec n 0) as [Hn | Hn].
  - now rewrite for_loop_nonpos.
  - apply (for_loop_invariant (fun _ t => P t)); [lia | exact Hs | exact Hstep].
Qed.

Lemma buf_set_same (t : list Z) (j : Z) : buf_set t j (buf_get t j) = t.
Proof.
  unfold buf_set, buf_get. destruct (j <? 0); [reflexivity |].
  destruct (t !! Z.to_nat j) as [v |] eqn:Hv.
  - now apply list_insert_id.
  - apply list_insert_ge. now apply lookup_ge_None.
Qed.

(** ** Negative and the combined transforms *)

Lemma length_negate_image (b : list Z) (W H : Z) :
  length (negate_image b W H) = length b.
Proof.
  unfold negate_image.
  apply (for_loop_preserves (fun t => length t = length b)); [reflexivity |].
  intros i t _ Ht. now rewrite length_buf_set.
Qed.

Lemma length_mirror_image (b : list Z) (W H : Z) :
  length (mirror_image b W H) = length b.
Proof.
  unfold mirror_image.
  apply (for_loop_preserves (fun t => length t = length b)); [reflexivity |].
  intros y t _ Ht.
  apply (for_loop_preserves (fun u => length u = length b)); [exact Ht |].
  intros x u _ Hu. now rewrite length_swap_pixels.
Qed.

Lemma negate_image_cells (b : list Z) (W H : Z) :
  0 <= W -> 0 <= H -> W * H <= UINT_MAX -> Z.of_nat (length b) = W * H ->
  forall j, 0 <= j < W * H ->
    buf_get (negate_image b W H) j = u8 (255 - buf_get b j).
Proof.
  intros HW HH Hfit Hlen. unfold negate_image, uint_mul.
  unfold UINT_MAX in Hfit. rewrite u32_id by nia.
  assert (Hinv :
    let t := for_loop (W * H) (fun i t => buf_set t i (u8 (255 - buf_get t i))) b in
    length t = length b /\
    forall j, 0 <= j < W * H ->
      buf_get t j = if j <? W * H then u8 (255 - buf_get b j) else buf_get b j).
  { apply (for_loop_invariant
             (fun i t => length t = length b /\
                forall j, 0 <= j < W * H ->
                  buf_get t j = if j <? i then u8 (255 - buf_get b j)
                                else buf_get b j)); [nia | |].
    - split; [reflexivity |]. intros j Hj.
      destruct (Z.ltb_spec j 0); [lia | reflexivity].
    - intros i t Hi [Hl Hcells]. split; [now rewrite length_buf_set |].
      intros j Hj. destruct (Z.eq_dec j i) as [-> | Hne].
      + rewrite buf_get_set_eq by lia. rewrite Hcells by lia.
        rewrite Z.ltb_irrefl. destruct (Z.ltb_spec i (i + 1)); [reflexivity | lia].
      + rewrite buf_get_set_ne by lia. rewrite Hcells by lia.
        destruct (Z.ltb_spec j i); destruct (Z.ltb_spec j (i + 1));
          (reflexivity || lia). }
  destruct Hinv as [_ Hcells]. intros j Hj. rewrite Hcells by lia.
  destruct (Z.ltb_spec j (W * H)); [reflexivity | lia].
Qed.

Lemma u8_negate (v : Z) : is_byte v -> u8 (255 - v) = 255 - v /\ is_byte (255 - v).
Proof.
  unfold is_byte, u8. intros Hv. rewrite Z.mod_small by lia. lia.
Qed.

Lemma Forall_buf_get (P : Z -> Prop) (t : list Z) :
  (forall j, 0 <= j < Z.of_nat (length t) -> P (buf_get t j)) -> Forall P t.
Proof.
  intros Hall. apply Forall_lookup. intros n v Hn.
  pose proof (lookup_lt_Some _ _ _ Hn) as Hlt.
  pose proof (buf_get_in t (Z.of_nat n) ltac:(lia)) as Hg.
  rewrite Nat2Z.id, Hn in Hg. injection Hg as ->. apply Hall. lia.
Qed.

Lemma apply_image_manipulations_shape (bitmap : list Z) (W H : Z)
    (config : print_job_config_t) (out : list Z) (w h : Z) :
  apply_image_manipulations bitmap W H config = (out, w, h) ->
  w = W /\ h = H /\ length out = length bitmap.
Proof.
  unfold apply_image_manipulations. intros [= <- <- <-]. repeat split.
  destruct (negativeImage config =? 0); destruct (mirrorImage config =? 0);
    rewrite ?length_mirror_image, ?length_negate_image; reflexivity.
Qed.

(** X3.  The rotate setting has no effect.  Whatever value it is given,
    2 (the quarter turn the source tests for) included, the transformer
    returns what it returns without it; with the negative and the mirror
    flag clear that is the buffer, the width and the height exactly as
    they came in: no pixel is moved and the dimensions are not exchanged. *)
Theorem rotate_is_ignored (bitmap : list Z) (W H r : Z)
    (config : print_job_config_t) :
  apply_image_manipulations bitmap W H (set_rotate r config)
  = apply_image_manipulations bitmap W H config /\
  (negativeImage config = 0 -> mirrorImage config = 0 ->
   apply_image_manipulations bitmap W H (set_rotate r config)
   = (bitmap, W, H)).
Proof.
  assert (Hsame : apply_image_manipulations bitmap W H (set_rotate r config)
                  = apply_image_manipulations bitmap W H config)
    by (destruct config; reflexivity).
  split; [exact Hsame |]. intros Hneg Hmirror. rewrite Hsame.
  unfold apply_image_manipulations. now rewrite Hneg, Hmirror.
Qed.

(** X1.  With the negative flag set (mirror clear) every sample v of a
    buffer of bytes becomes 255 - v, the result is again a buffer of
    bytes, and the transform applied twice gives the buffer back. *)
Theorem negative_inverts (W H : Z) (bitmap : list Z)
    (config : print_job_config_t) :
  0 <= W -> 0 <= H -> W * H <= UINT_MAX -> Z.of_nat (length bitmap) = W * H ->
  Forall is_byte bitmap ->
  negativeImage config <> 0 -> mirrorImage config = 0 ->
  let '(negative, _, _) := apply_image_manipulations bitmap W H config in
  (forall j, 0 <= j < W * H -> buf_get negative j = 255 - buf_get bitmap j) /\
  Forall is_byte negative /\
  fst (fst (apply_image_manipulations negative W H config)) = bitmap.
Proof.
  intros HW HH Hfit Hlen Hbytes Hneg Hmirror.
  unfold apply_image_manipulations. rewrite Hmirror, Z.eqb_refl.
  destruct (Z.eqb_spec (negativeImage config) 0) as [Hz | _]; [contradiction |].
  cbn [fst].
  pose proof (negate_image_cells bitmap W H HW HH Hfit Hlen) as Hcells.
  pose proof (length_negate_image bitmap W H) as Hl.
  assert (Hget : forall j, is_byte (buf_get bitmap j))
    by (intros j; apply bytes_get; exact Hbytes).
  assert (Hfirst : forall j, 0 <= j < W * H ->
            buf_get (negate_image bitmap W H) j = 255 - buf_get bitmap j).
  { intros j Hj. rewrite Hcells by assumption. now apply u8_negate. }
  split; [exact Hfirst | split].
  - apply Forall_buf_get. intros j Hj. rewrite Hfirst by lia.
    now apply u8_negate.
  - apply buf_ext; [now rewrite !length_negate_image |].
    intros j Hj. rewrite !length_negate_image in Hj.
    rewrite negate_image_cells by (assumption || lia).
    rewrite Hfirst by lia.
    destruct (u8_negate (255 - buf_get bitmap j)) as [-> _];
      [now apply u8_negate | lia].
Qed.

Lemma negative_inverts_witness :
  let config := set_negativeImage 1 zero_config in
  fst (fst (apply_image_manipulations
              (fst (fst (apply_image_manipulations [0; 17; 255; 128] 2 2 config)))
              2 2 config)) = [0; 17; 255; 128].
Proof.
  intros config.
  pose proof (negative_inverts 2 2 [0; 17; 255; 128] config
                ltac:(lia) ltac:(lia) ltac:(unfold UINT_MAX; lia)
                ltac:(reflexivity)
                ltac:(repeat constructor; unfold is_byte; lia)
                ltac:(discriminate) ltac:(reflexivity)) as Hn.
  destruct (apply_image_manipulations [0; 17; 255; 128] 2 2 config)
    as [[negative w'] h'].
  destruct Hn as (_ & _ & Htwice). exact Htwice.
Defined.

(** X2.  With both flags set the negative is taken first and the rows are
    reversed after it: pixel (x, y) of the result is 255 minus the old
    pixel (W-1-x, y); the pair applied twice gives the buffer back. *)
Theorem negative_then_mirror (W H : Z) (bitmap : list Z)
    (config : print_job_config_t) :
  0 < W -> 0 <= H -> W * H <= UINT_MAX -> Z.of_nat (length bitmap) = W * H ->
  Forall is_byte bitmap ->
  negativeImage config <> 0 -> mirrorImage config <> 0 ->
  let '(out, _, _) := apply_image_manipulations bitmap W H config in
  out = mirror_image (negate_image bitmap W H) W H /\
  (forall x y, 0 <= x < W -> 0 <= y < H ->
     buf_get out (y * W + x) = 255 - buf_get bitmap (y * W + (W - 1 - x))) /\
  fst (fst (apply_image_manipulations out W H config)) = bitmap.
Proof.
  intros HW HH Hfit Hlen Hbytes Hneg Hmirror.
  unfold apply_image_manipulations.
  destruct (Z.eqb_spec (negativeImage config) 0) as [Hz | _]; [contradiction |].
  destruct (Z.eqb_spec (mirrorImage config) 0) as [Hz | _]; [contradiction |].
  cbn [fst].
  assert (Hget : forall j, is_byte (buf_get bitmap j))
    by (intros j; apply bytes_get; exact Hbytes).
  assert (Hstage : forall t, Z.of_nat (length t) = W * H ->
            (forall j, is_byte (buf_get t j)) ->
            Z.of_nat (length (mirror_image (negate_image t W H) W H)) = W * H /\
            forall x y, 0 <= x < W -> 0 <= y < H ->
              buf_get (mirror_image (negate_image t W H) W H) (y * W + x)
              = 255 - buf_get t (y * W + (W - 1 - x))).
  { intros t Ht Htb.
    destruct (mirror_image_cells W H HW HH Hfit (negate_image t W H))
      as [Hl Hcells]; [now rewrite length_negate_image |].
    split; [rewrite Hl, length_negate_image; exact Ht |].
    intros x y Hx Hy. rewrite Hcells by assumption.
    rewrite negate_image_cells; try assumption; try lia.
    - now apply u8_negate.
    - apply cell_bounds; lia. }
  destruct (Hstage bitmap Hlen Hget) as [Hl1 Hc1].
  split; [reflexivity | split; [exact Hc1 |]].
  set (out := mirror_image (negate_image bitmap W H) W H) in *.
  assert (Hout : forall j, is_byte (buf_get out j)).
  { intros j. destruct (Z_lt_ge_dec j 0) as [Hn | Hp];
      [rewrite buf_get_outside by lia; unfold is_byte; lia |].
    destruct (Z_lt_ge_dec j (W * H)) as [Hin | Hge];
      [| rewrite buf_get_outside by lia; unfold is_byte; lia].
    destruct (cell_of_index W H j HW ltac:(lia)) as (Hx & Hy & ->).
    rewrite Hc1 by assumption. now apply u8_negate. }
  destruct (Hstage out Hl1 Hout) as [Hl2 Hc2].
  apply buf_ext; [lia |]. intros j Hj.
  destruct (cell_of_index W H j HW ltac:(lia)) as (Hx & Hy & Hj').
  rewrite Hj'. rewrite Hc2, Hc1 by lia.
  replace (W - 1 - (W - 1 - j mod W)) with (j mod W) by lia. lia.
Qed.

Lemma negative_then_mirror_witness :
  let config := set_mirrorImage 1 (set_negativeImage 1 zero_config) in
  fst (fst (apply_image_manipulations [0; 17; 255; 128; 1; 2] 3 2 config))
  = [0; 238; 255; 253; 254; 127].
Proof.
  intros config.
  pose proof (negative_then_mirror 3 2 [0; 17; 255; 128; 1; 2] config
                ltac:(lia) ltac:(lia) ltac:(unfold UINT_MAX; lia)
                ltac:(reflexivity)
                ltac:(repeat constructor; unfold is_byte; lia)
                ltac:(discriminate) ltac:(discriminate)) as Hn.
  destruct (apply_image_manipulations [0; 17; 255; 128; 1; 2] 3 2 config)
    as [[out w'] h'].
  destruct Hn as (-> & _ & _). reflexivity.
Defined.

(** ** Diffusion of a field that is already quantized *)

Lemma buf_add_zero (t : list Z) (j : Z) :
  (forall k, quantized (buf_get t k) \/ buf_get t k = 0) ->
  buf_add t j 0 = t.
Proof.
  intros Hq. unfold buf_add, int_add. rewrite Z.add_0_r.
  rewrite sint_id; [apply buf_set_same |].
  destruct (Hq j) as [[-> | ->] | ->]; lia.
Qed.

Lemma diffuse_pixel_quantized (W H x y : Z) (t : list Z) :
  0 < W -> 0 < H -> W * H <= INT_MAX ->
  0 <= x < W -> 0 <= y < H ->
  (forall k, quantized (buf_get t k) \/ buf_get t k = 0) ->
  diffuse_pixel W H y x t = t.
Proof.
  intros HW HH Hfit Hx Hy Hq.
  rewrite diffuse_pixel_flat_eq by assumption. unfold diffuse_pixel_flat.
  set (i := y * W + x).
  assert (Hnew : (if buf_get t i <? 128 then 0 else 255) = buf_get t i)
    by (destruct (Hq i) as [[-> | ->] | ->]; reflexivity).
  rewrite Hnew, buf_set_same.
  replace (int_sub (buf_get t i) (buf_get t i)) with 0
    by (unfold int_sub; rewrite Z.sub_diag; reflexivity).
  change (share 0 7) with 0. change (share 0 3) with 0.
  change (share 0 5) with 0. change (share 0 1) with 0.
  destruct (x + 1 <? W); destruct (y + 1 <? H); destruct (x - 1 >=? 0);
    cbn [andb]; rewrite ?(buf_add_zero t) by assumption; reflexivity.
Qed.

Lemma error_diffusion_fixed (W H : Z) (b : list Z) :
  0 < W -> 0 < H -> W * H <= INT_MAX -> Forall quantized b ->
  error_diffusion b W H = b.
Proof.
  intros HW HH Hfit Hq.
  assert (Hcells : forall k, quantized (buf_get b k) \/ buf_get b k = 0).
  { intros k. destruct (Z_lt_ge_dec k 0) as [Hn | Hp];
      [right; apply buf_get_outside; lia |].
    destruct (Z_lt_ge_dec k (Z.of_nat (length b))) as [Hin | Hge];
      [| right; apply buf_get_outside; lia].
    left. pose proof (buf_get_in b k ltac:(lia)) as Hg.
    exact (proj1 (Forall_lookup _ b) Hq _ _ Hg). }
  unfold error_diffusion.
  apply (for_loop_preserves (fun t => t = b)); [reflexivity |].
  intros y t Hy ->.
  apply (for_loop_preserves (fun t => t = b)); [reflexivity |].
  intros x t Hx ->. now apply diffuse_pixel_quantized.
Qed.

(** X4.  A field whose values are all 0 or 255 comes out of the diffuser
    unchanged, so diffusing twice is the same as diffusing once. *)
Theorem error_diffusion_idempotent (W H : Z) (b : list Z) :
  0 < W -> 0 < H -> W * H <= INT_MAX -> Z.of_nat (length b) = W * H ->
  (Forall quantized b -> error_diffusion b W H = b) /\
  error_diffusion (error_diffusion b W H) W H = error_diffusion b W H.
Proof.
  intros HW HH Hfit Hlen. split.
  - now apply error_diffusion_fixed.
  - apply error_diffusion_fixed; try assumption.
    now apply error_diffusion_all_quantized.
Qed.

Lemma error_diffusion_idempotent_witness :
  error_diffusion (error_diffusion [100; 200; 50; 128; 127; 0] 3 2) 3 2
  = error_diffusion [100; 200; 50; 128; 127; 0] 3 2.
Proof.
  apply (error_diffusion_idempotent 3 2 [100; 200; 50; 128; 127; 0]);
    [lia | lia | unfold INT_MAX; lia | reflexivity].
Defined.

(** ** The conversion as a whole *)

Lemma length_fresh_block (g : nat -> Z) (n : Z) :
  0 <= n -> Z.of_nat (length (fresh_block g n)) = n.
Proof.
  intros Hn. unfold fresh_block. rewrite length_map, length_seq. lia.
Qed.

(** The copy loop overwrites every cell of the block it is given. *)
Lemma load_gray_all (gray_data buffer : list Z) (W H : Z) :
  0 <= W * H <= INT_MAX ->
  Z.of_nat (length gray_data) = W * H -> Z.of_nat (length buffer) = W * H ->
  load_gray gray_data buffer W H = gray_data.
Proof.
  intros Hfit Hg Hb. unfold INT_MAX in Hfit. unfold load_gray, int_mul.
  rewrite sint_id by lia.
  assert (Hinv :
    let t := for_loop (W * H) (fun i t => buf_set t i (buf_get gray_data i)) buffer in
    length t = length buffer /\
    forall j, 0 <= j < W * H -> buf_get t j = buf_get gray_data j).
  { apply (for_loop_invariant
             (fun i t => length t = length buffer /\
                forall j, 0 <= j < i -> buf_get t j = buf_get gray_data j));
      [lia | split; [reflexivity | intros j Hj; lia] |].
    intros i t Hi [Hl Hcells]. split; [now rewrite length_buf_set |].
    intros j Hj. destruct (Z.eq_dec j i) as [-> | Hne].
    - apply buf_get_set_eq. lia.
    - rewrite buf_get_set_ne by lia. apply Hcells. lia. }
  destruct Hinv as [Hl Hcells]. apply buf_ext; [lia |].
  intros j Hj. apply Hcells. lia.
Qed.

Lemma memset_any_block (p1 p2 : list Z) (c n : Z) :
  Z.of_nat (length p1) = n -> Z.of_nat (length p2) = n ->
  memset p1 c n = memset p2 c n.
Proof.
  intros H1 H2.
  destruct (memset_spec p1 c n ltac:(lia)) as [Hl1 Hc1].
  destruct (memset_spec p2 c n ltac:(lia)) as [Hl2 Hc2].
  apply buf_ext; [lia |]. intros j Hj. rewrite Hc1, Hc2 by lia. reflexivity.
Qed.

Lemma length_pack_mono (buffer mono_data : list Z) (W H : Z) :
  length (pack_mono buffer mono_data W H) = length mono_data.
Proof.
  unfold pack_mono, memset.
  apply (for_loop_preserves (fun t => length t = length mono_data)).
  - apply (for_loop_preserves (fun t => length t = length mono_data));
      [reflexivity |].
    intros i t _ Ht. now rewrite length_buf_set.
  - intros y t _ Ht.
    apply (for_loop_preserves (fun u => length u = length mono_data)); [exact Ht |].
    intros x u _ Hu. unfold clear_black_pixel.
    destruct (_ <? 128); [now rewrite length_buf_set | exact Hu].
Qed.

Lemma length_convert_gray_to_mono (heap : alloc_result)
    (gray_data mono_data : list Z) (width height mode : Z) :
  length (convert_gray_to_mono heap gray_data mono_data width height mode)
  = length mono_data.
Proof.
  unfold convert_gray_to_mono. destruct heap; [| reflexivity].
  apply length_pack_mono.
Qed.

(** When its allocation succeeds the conversion is the packing of the
    diffused samples into a buffer set to 0xFF. *)
Lemma convert_normal_form (g : nat -> Z) (gray_data m1 m2 : list Z)
    (W H mode : Z) :
  0 <= W -> 0 <= H -> W + 7 <= INT_MAX -> W * H <= INT_MAX ->
  Z.of_nat (length gray_data) = W * H ->
  Z.of_nat (length m1) = (W + 7) / 8 * H ->
  Z.of_nat (length m2) = (W + 7) / 8 * H ->
  convert_gray_to_mono (Some g) gray_data m1 W H mode
  = pack_mono (error_diffusion gray_data W H) m2 W H.
Proof.
  intros HW HH HW7 Hfit Hg H1 H2. unfold convert_gray_to_mono.
  assert (Harea : 0 <= W * H) by nia.
  assert (Hmul : int_mul W H = W * H)
    by (unfold INT_MAX in Hfit; apply sint_id; lia).
  rewrite load_gray_all; try lia.
  2:{ rewrite Hmul. now apply length_fresh_block. }
  unfold pack_mono. f_equal. rewrite (int_stride W HW HW7).
  pose proof (stride_area W H HW HH HW7 Hfit) as Ha. unfold INT_MAX in Ha.
  replace (int_mul ((W + 7) / 8) H) with ((W + 7) / 8 * H)
    by (symmetry; apply sint_id; lia).
  now apply memset_any_block.
Qed.

(** X5.  When its allocation succeeds the conversion depends on the gray
    samples only: neither what the allocator left in the work block and in
    the monochrome block nor the print mode reaches the output. *)
Theorem convert_ignores_garbage (g1 g2 : nat -> Z)
    (gray_data m1 m2 : list Z) (W H mode1 mode2 : Z) :
  0 <= W -> 0 <= H -> W + 7 <= INT_MAX -> W * H <= INT_MAX ->
  Z.of_nat (length gray_data) = W * H ->
  Z.of_nat (length m1) = (W + 7) / 8 * H ->
  Z.of_nat (length m2) = (W + 7) / 8 * H ->
  convert_gray_to_mono (Some g1) gray_data m1 W H mode1
  = convert_gray_to_mono (Some g2) gray_data m2 W H mode2.
Proof.
  intros HW HH HW7 Hfit Hg H1 H2.
  rewrite (convert_normal_form g1 gray_data m1 m2 W H mode1) by assumption.
  rewrite (convert_normal_form g2 gray_data m2 m2 W H mode2) by assumption.
  reflexivity.
Qed.

Lemma convert_ignores_garbage_witness :
  convert_gray_to_mono (Some (fun _ => 99)) [10; 250; 130] [1] 3 1 0
  = convert_gray_to_mono (Some (fun n => Z.of_nat n)) [10; 250; 130] [200] 3 1 7.
Proof.
  apply (convert_ignores_garbage (fun _ => 99) (fun n => Z.of_nat n)
           [10; 250; 130] [1] [200] 3 1 0 7);
    (lia || (unfold INT_MAX; lia) || reflexivity).
Defined.

Lemma quantized_black_iff (v : Z) : quantized v -> (v < 128 <-> v = 0).
Proof. intros [-> | ->]; lia. Qed.

(** X7.  From gray bytes to bits: when its allocation succeeds the
    conversion of a W x H page of bytes clears the bit of pixel (x, y),
    bit 7 - x mod 8 of byte y * stride + x / 8, exactly where the exact
    Floyd-Steinberg diffusion of the samples gives 0, and leaves the bits
    past column W - 1 set. *)
Theorem convert_bits_exact (g : nat -> Z) (gray_data mono_data : list Z)
    (W H mode : Z) :
  0 < W -> 0 < H -> W + 7 <= INT_MAX -> W * H <= INT_MAX ->
  Z.of_nat (length gray_data) = W * H -> Forall is_byte gray_data ->
  Z.of_nat (length mono_data) = (W + 7) / 8 * H ->
  let stride := (W + 7) / 8 in
  let out := convert_gray_to_mono (Some g) gray_data mono_data W H mode in
  (forall x y, 0 <= x < W -> 0 <= y < H ->
     (mono_bit out stride x y = false <->
      buf_get (error_diffusion_exact gray_data W H) (y * W + x) = 0)) /\
  (forall x y, W <= x < 8 * stride -> 0 <= y < H ->
     mono_bit out stride x y = true).
Proof.
  intros HW HH HW7 Hfit Hg Hbytes Hm stride out. subst out stride.
  rewrite (convert_normal_form g gray_data mono_data mono_data W H mode)
    by (assumption || lia).
  destruct (pack_mono_upto W H (error_diffusion gray_data W H)
              ltac:(lia) ltac:(lia) HW7 Hfit mono_data Hm) as [_ Hbits].
  pose proof (error_diffusion_visited W H HW HH Hfit gray_data Hg) as [_ Hq].
  rewrite <- (error_diffusion_exact_eq W H gray_data HW HH Hfit Hg
                (bytes_get gray_data Hbytes)).
  pose proof (stride_is_ceiling W) as Hs.
  split.
  - intros x y Hx Hy. rewrite Hbits by lia. unfold packed_before, black.
    destruct (Z.ltb_spec x W); [| lia]. destruct (Z.ltb_spec y H); [| lia].
    cbn [andb orb].
    pose proof (cell_bounds W H x y Hx Hy) as Hc.
    pose proof (quantized_black_iff _ (Hq (y * W + x) ltac:(lia))) as Hiff.
    destruct (Z.ltb_spec (buf_get (error_diffusion gray_data W H) (y * W + x)) 128);
      cbn [negb]; split; intros; (reflexivity || discriminate || lia).
  - intros x y Hx Hy. rewrite Hbits by lia. unfold packed_before.
    destruct (Z.ltb_spec x W); [lia | reflexivity].
Qed.

Lemma convert_bits_exact_witness :
  mono_bit (convert_gray_to_mono (Some (fun _ => 0)) [100; 200; 50] [0] 3 1 0)
    1 0 0 = false.
Proof.
  destruct (convert_bits_exact (fun _ => 0) [100; 200; 50] [0] 3 1 0)
    as [Hbit _];
    [lia | lia | unfold INT_MAX; lia | unfold INT_MAX; lia | reflexivity
    | repeat constructor; unfold is_byte; lia | reflexivity |].
  apply (Hbit 0 0); [lia | lia | reflexivity].
Defined.

(** X6.  A page that is already black and white goes through unchanged:
    when every sample is 0 or 255 the bit of pixel (x, y) is cleared
    exactly where the sample is 0. *)
Theorem bitonal_page_passes (g : nat -> Z) (gray_data mono_data : list Z)
    (W H mode : Z) :
  0 < W -> 0 < H -> W + 7 <= INT_MAX -> W * H <= INT_MAX ->
  Z.of_nat (length gray_data) = W * H -> Forall quantized gray_data ->
  Z.of_nat (length mono_data) = (W + 7) / 8 * H ->
  forall x y, 0 <= x < W -> 0 <= y < H ->
    (mono_bit (convert_gray_to_mono (Some g) gray_data mono_data W H mode)
       ((W + 7) / 8) x y = false
     <-> buf_get gray_data (y * W + x) = 0).
Proof.
  intros HW HH HW7 Hfit Hg Hq Hm x y Hx Hy.
  rewrite (convert_normal_form g gray_data mono_data mono_data W H mode)
    by (assumption || lia).
  rewrite error_diffusion_fixed by assumption.
  destruct (pack_mono_upto W H gray_data ltac:(lia) ltac:(lia) HW7 Hfit
              mono_data Hm) as [_ Hbits].
  pose proof (stride_is_ceiling W) as Hs.
  rewrite Hbits by lia. unfold packed_before, black.
  destruct (Z.ltb_spec x W); [| lia]. destruct (Z.ltb_spec y H); [| lia].
  cbn [andb orb].
  pose proof (cell_bounds W H x y Hx Hy) as Hc.
  pose proof (buf_get_in gray_data (y * W + x) ltac:(lia)) as Hin.
  pose proof (quantized_black_iff _ (proj1 (Forall_lookup _ gray_data) Hq _ _ Hin))
    as Hiff.
  destruct (Z.ltb_spec (buf_get gray_data (y * W + x)) 128);
    cbn [negb]; split; intros; (reflexivity || discriminate || lia).
Qed.

Lemma bitonal_page_passes_witness :
  mono_bit (convert_gray_to_mono (Some (fun _ => 0)) [255; 0; 255; 0] [0; 0] 2 2 0)
    1 1 1 = false.
Proof.
  apply (bitonal_page_passes (fun _ => 0) [255; 0; 255; 0] [0; 0] 2 2 0);
    try lia; try (unfold INT_MAX; lia); try reflexivity.
  repeat first [ apply List.Forall_nil
               | apply List.Forall_cons; [unfold quantized; lia |] ].
Defined.

(** ** Pages *)

Lemma length_string_of_bytes (l : list Z) :
  String.length (string_of_bytes l) = length l.
Proof.
  unfold string_of_bytes.
  induction l as [| b l IH]; cbn [fold_right String.length length];
    [reflexivity | now rewrite IH].
Qed.

(** X9.  For a page that is read and whose two buffers are granted, the
    page contributes one block to standard output and the loop goes on;
    the BITMAP command announces ceil(W/8) bytes per row and H rows, and
    the payload behind it holds exactly that many bytes. *)
Theorem bitmap_payload_matches_header (config : print_job_config_t)
    (p : page_input) (g gm : nat -> Z) :
  raster_alloc p = Some g -> mono_alloc p = Some gm -> read_result p <> 0 ->
  0 < cupsWidth (header p) -> 0 < cupsHeight (header p) ->
  cupsWidth (header p) + 7 <= INT_MAX ->
  (cupsWidth (header p) + 7) / 8 * cupsHeight (header p) <= INT_MAX ->
  let stride := (cupsWidth (header p) + 7) / 8 in
  exists mono,
    Z.of_nat (String.length (string_of_bytes mono))
    = stride * cupsHeight (header p) /\
    stdout_of (fst (page_body config p)) =
      (cmd_size config ++ cmd_gap config ++ cmd_direction
       ++ cmd_reference config ++ cmd_density config ++ cmd_speed config
       ++ cmd_cls ++ cmd_bitmap stride (cupsHeight (header p))
       ++ string_of_bytes mono ++ cmd_print config)%string /\
    snd (page_body config p) = true.
Proof.
  intros Hg Hgm Hread HW HH HW7 Harea stride.
  set (W := cupsWidth (header p)) in *. set (H := cupsHeight (header p)) in *.
  unfold INT_MAX in *.
  assert (Hs : W <= 8 * stride < W + 8) by apply stride_is_ceiling.
  assert (Hs1 : 1 <= stride) by lia.
  assert (HH' : H <= 2147483647) by nia.
  unfold page_body. rewrite Hg, Hgm. fold W H.
  destruct (Z.eqb_spec (read_result p) 0) as [Hz | _]; [contradiction |].
  destruct (apply_image_manipulations _ W H config) as [[b w] h] eqn:Hrun.
  destruct (apply_image_manipulations_shape _ _ _ _ _ _ _ Hrun) as (-> & -> & _).
  assert (Hstride : uint_div (uint_add W 7) 8 = stride).
  { unfold uint_div, uint_add. rewrite u32_id by lia.
    apply Z.quot_div_nonneg; lia. }
  rewrite Hstride.
  assert (Hlen : uint_mul stride H = stride * H) by (apply u32_id; nia).
  rewrite Hlen, (sint_id stride), (sint_id H), (sint_id W) by lia.
  set (mono := convert_gray_to_mono (diffusion_alloc p) b
                 (fresh_block gm (stride * H)) W H (print_mode config)).
  assert (Hmono : Z.of_nat (length mono) = stride * H).
  { subst mono. rewrite length_convert_gray_to_mono.
    apply length_fresh_block. nia. }
  exists mono. split; [rewrite length_string_of_bytes; exact Hmono |].
  split; [| reflexivity]. cbn [fst].
  assert (Hout : send_printer_commands mono stride H config =
            (cmd_size config ++ cmd_gap config ++ cmd_direction
             ++ cmd_reference config ++ cmd_density config ++ cmd_speed config
             ++ cmd_cls ++ cmd_bitmap stride H
             ++ string_of_bytes mono ++ cmd_print config)%string).
  { unfold send_printer_commands.
    replace (int_mul stride H) with (stride * H)
      by (symmetry; apply sint_id; nia).
    rewrite firstn_all2 by lia. reflexivity. }
  unfold convert_events.
  destruct (diffusion_alloc p); cbn [is_null negb app stdout_of];
    rewrite string_app_nil_r; exact Hout.
Qed.

Lemma bitmap_payload_matches_header_witness :
  exists mono,
    Z.of_nat (String.length (string_of_bytes mono)) = 2 /\
    stdout_of (fst (page_body zero_config short_page)) =
      (cmd_size zero_config ++ cmd_gap zero_config ++ cmd_direction
       ++ cmd_reference zero_config ++ cmd_density zero_config
       ++ cmd_speed zero_config ++ cmd_cls ++ cmd_bitmap 1 2
       ++ string_of_bytes mono ++ cmd_print zero_config)%string /\
    snd (page_body zero_config short_page) = true.
Proof.
  apply (bitmap_payload_matches_header zero_config short_page
           (fun _ => 0) (fun _ => 0));
    (reflexivity || discriminate || lia || (unfold INT_MAX; cbn; lia)).
Defined.

(** ** The whole job *)

Lemma process_raster_page_cons (config : print_job_config_t) (p : page_input)
    (rest : list page_input) :
  process_raster_page config (p :: rest) =
  ReadHeader true ::
  (if degenerate (header p) then process_raster_page config rest
   else page_then config p (process_raster_page config rest)).
Proof.
  cbn [process_raster_page]. unfold page_then.
  destruct (degenerate (header p)); [reflexivity |].
  destruct (page_body config p) as [events continue]. reflexivity.
Qed.

Ltac page_cases config p :=
  unfold page_then, page_body;
  destruct (raster_alloc p) as [g |]; [| reflexivity];
  destruct (read_result p =? 0); [reflexivity |];
  destruct (apply_image_manipulations _ _ _ config) as [[b w] h];
  destruct (mono_alloc p) as [gm |]; [| reflexivity];
  unfold convert_events; destruct (diffusion_alloc p); reflexivity.

Lemma heap_run_page (config : print_job_config_t) (p : page_input)
    (next : list event) :
  heap_run [] (page_then config p next)
  = if snd (page_body config p) then heap_run [] next else Some [].
Proof. page_cases config p. Qed.

Lemma silent_after_error_page (config : print_job_config_t) (p : page_input)
    (next : list event) :
  silent_after_error (page_then config p next)
  = if snd (page_body config p) then silent_after_error next else true.
Proof. page_cases config p. Qed.

Lemma stderr_of_page (config : print_job_config_t) (p : page_input)
    (next : list event) :
  length (stderr_of (page_then config p next))
  = if snd (page_body config p) then length (stderr_of next) else 1%nat.
Proof. page_cases config p. Qed.

Lemma heap_run_job (config : print_job_config_t) (raster : list page_input) :
  heap_run [] (process_raster_page config raster) = Some [].
Proof.
  induction raster as [| p rest IH]; [reflexivity |].
  rewrite process_raster_page_cons. cbn [heap_run].
  destruct (degenerate (header p)); [exact IH |].
  rewrite heap_run_page, IH. now destruct (snd (page_body config p)).
Qed.

(** X10.  Every run keeps the heap in order: a buffer is released only
    while it is held, no buffer is requested again while it is held, and
    when the page loop or the program ends nothing is held, on the error
    paths as on the normal one. *)
Theorem heap_discipline (config : print_job_config_t)
    (raster : list page_input) (i : main_input) :
  heap_run [] (process_raster_page config raster) = Some [] /\
  heap_run [] (snd (main i)) = Some [].
Proof.
  split; [apply heap_run_job |]. unfold main.
  destruct ((argc i <? 6) || (argc i >? 7)); [reflexivity |].
  destruct ((argc i =? 7) && _); [reflexivity |]. cbn [snd].
  destruct (raster_opens i); [apply heap_run_job | reflexivity].
Qed.

Lemma silent_after_error_job (config : print_job_config_t)
    (raster : list page_input) :
  silent_after_error (process_raster_page config raster) = true /\
  (length (stderr_of (process_raster_page config raster)) <= 1)%nat.
Proof.
  induction raster as [| p rest [IHs IHc]]; [split; [reflexivity | cbn; lia] |].
  rewrite process_raster_page_cons. cbn [silent_after_error stderr_of].
  destruct (degenerate (header p)); [split; assumption |].
  rewrite silent_after_error_page, stderr_of_page.
  destruct (snd (page_body config p)); split; (assumption || reflexivity || lia).
Qed.

(** X11.  A run reports at most one error, and once it has written to
    standard error it reads no further header or pixel, requests no
    memory and writes nothing to standard output: only [free]s follow. *)
Theorem silent_after_first_error (i : main_input) :
  silent_after_error (snd (main i)) = true /\
  (length (stderr_of (snd (main i))) <= 1)%nat.
Proof.
  unfold main.
  destruct ((argc i <? 6) || (argc i >? 7)); [split; [reflexivity | cbn; lia] |].
  destruct ((argc i =? 7) && _); [split; [reflexivity | cbn; lia] |]. cbn [snd].
  destruct (raster_opens i); [apply silent_after_error_job |].
  split; [reflexivity | cbn; lia].
Qed.

Lemma filter_page_then (f : event -> bool) (config : print_job_config_t)
    (p : page_input) (n1 n2 : list event) :
  List.filter f n1 = List.filter f n2 ->
  List.filter f (page_then config p n1) = List.filter f (page_then config p n2).
Proof.
  intros Heq. unfold page_then. rewrite !List.filter_app.
  destruct (snd (page_body config p)); [now rewrite Heq | reflexivity].
Qed.

Lemma stdout_of_filter (t : list event) :
  stdout_of (List.filter (fun e => negb (is_read_header e)) t) = stdout_of t.
Proof.
  induction t as [| e t IH]; [reflexivity |].
  destruct e; cbn [List.filter is_read_header negb stdout_of]; now rewrite ?IH.
Qed.

(** X12.  Degenerate pages are transparent wherever they stand in the
    stream: apart from the header reads, the job does exactly what it does
    on the stream without them, and standard output is the same. *)
Theorem degenerate_pages_transparent (config : print_job_config_t)
    (raster : list page_input) :
  let good := List.filter (fun p => negb (degenerate (header p))) raster in
  List.filter (fun e => negb (is_read_header e))
    (process_raster_page config raster)
  = List.filter (fun e => negb (is_read_header e))
      (process_raster_page config good) /\
  stdout_of (process_raster_page config raster)
  = stdout_of (process_raster_page config good).
Proof.
  intros good. subst good.
  assert (Hfilter :
    List.filter (fun e => negb (is_read_header e))
      (process_raster_page config raster)
    = List.filter (fun e => negb (is_read_header e))
        (process_raster_page config
           (List.filter (fun p => negb (degenerate (header p))) raster))).
  { induction raster as [| p rest IH]; [reflexivity |].
    rewrite process_raster_page_cons. cbn [List.filter is_read_header negb].
    destruct (degenerate (header p)) eqn:Hdeg; cbn [negb]; [exact IH |].
    rewrite process_raster_page_cons, Hdeg.
    cbn [List.filter is_read_header negb].
    now apply filter_page_then. }
  split; [exact Hfilter |].
  rewrite <- (stdout_of_filter (process_raster_page config raster)), Hfilter.
  apply stdout_of_filter.
Qed.

(** X13.  The exit status is 1 exactly when the argument count is not 6
    or 7, or the named input file cannot be opened, and then one message
    and nothing else is written; in every other run the status is 0,
    whatever happens to the raster stream and to the pages. *)
Theorem main_exit_status (i : main_input) :
  (fst (main i) = 1 <->
   argc i < 6 \/ 7 < argc i \/ (argc i = 7 /\ open_result i < 0)) /\
  (fst (main i) = 1 ->
   exists msg, snd (main i) = [Stderr msg]) /\
  (fst (main i) <> 1 -> fst (main i) = 0).
Proof.
  destruct (Z_lt_ge_dec (argc i) 6) as [Hlo | Hlo].
  { rewrite main_usage_error by lia. cbn [fst snd].
    repeat split; eauto; try lia. }
  destruct (Z_lt_ge_dec 7 (argc i)) as [Hhi | Hhi].
  { rewrite main_usage_error by lia. cbn [fst snd].
    repeat split; eauto; try lia. }
  destruct (Z.eq_dec (argc i) 7) as [H7 | H7];
    [destruct (Z_lt_ge_dec (open_result i) 0) as [Hfd | Hfd] |].
  - rewrite main_open_error by assumption. cbn [fst snd].
    repeat split; eauto; try lia.
  - pose proof (main_exit_zero i ltac:(lia) ltac:(lia)) as Hz.
    rewrite Hz. repeat split; intros; try lia; try discriminate.
  - pose proof (main_exit_zero i ltac:(lia) ltac:(lia)) as Hz.
    rewrite Hz. repeat split; intros; try lia; try discriminate.
Qed.

(** X14.  A failed allocation of the raster buffer or of the monochrome
    buffer ends the job on the spot: one message on standard error, the
    raster buffer released if it was held, nothing on standard output for
    this page or any later one. *)
Theorem buffer_alloc_failure_aborts (config : print_job_config_t)
    (p : page_input) (rest : list page_input) :
  degenerate (header p) = false ->
  (raster_alloc p = None ->
   process_raster_page config (p :: rest) =
   [ReadHeader true;
    Malloc RasterBuffer
      (uint_mul (cupsHeight (header p)) (cupsBytesPerLine (header p))) false;
    Stderr msg_raster_alloc]) /\
  (forall g, raster_alloc p = Some g -> read_result p <> 0 ->
   mono_alloc p = None ->
   stdout_of (process_raster_page config (p :: rest)) = EmptyString /\
   stderr_of (process_raster_page config (p :: rest)) = [msg_mono_alloc] /\
   last (process_raster_page config (p :: rest)) = Some (Free RasterBuffer)).
Proof.
  intros Hdeg. split.
  - intros Hnull. now apply raster_alloc_failure.
  - intros g Hg Hread Hnull.
    destruct (mono_alloc_failure config p rest g Hdeg Hg Hread Hnull)
      as (len & mono_len & ->).
    repeat split.
Qed.

Lemma buffer_alloc_failure_aborts_witness :
  process_raster_page zero_config
    [mk_page (mk_header 1 2 1) None [] 1 None None; short_page]
  = [ReadHeader true; Malloc RasterBuffer 2 false; Stderr msg_raster_alloc].
Proof.
  apply (buffer_alloc_failure_aborts zero_config
           (mk_page (mk_header 1 2 1) None [] 1 None None) [short_page]);
    reflexivity.
Defined.

(** ** Options *)

Lemma int_option_keeps (o : string -> option string) (name : string)
    (store : Z -> print_job_config_t -> print_job_config_t)
    (f : print_job_config_t -> Z) (c : print_job_config_t) :
  (forall v c', f (store v c') = f c') ->
  f (int_option o name store c) = f c.
Proof. intros Hk. unfold int_option. destruct (o name); [apply Hk | reflexivity]. Qed.

Lemma int_option_gets (o : string -> option string) (name : string)
    (store : Z -> print_job_config_t -> print_job_config_t)
    (f : print_job_config_t -> Z) (c : print_job_config_t) :
  (forall v c', f (store v c') = v) ->
  f (int_option o name store c)
  = match o name with Some val => atoi val | None => f c end.
Proof. intros Hs. unfold int_option. destruct (o name); [apply Hs | reflexivity]. Qed.

Lemma resolve_page_size_keeps (f : print_job_config_t -> Z) (val : string)
    (c : print_job_config_t) :
  (forall v c', f (set_page_width_mm v c') = f c') ->
  (forall v c', f (set_page_height_mm v c') = f c') ->
  f (resolve_page_size val c) = f c.
Proof.
  intros Hw Hh. unfold resolve_page_size.
  destruct (starts_with_Custom val).
  - destruct (sscanf_2 _ _ _ _) as [[r w] h]. now rewrite Hh, Hw.
  - destruct (sscanf_2 _ _ _ _) as [[r w] h].
    destruct (r =? 2); repeat (rewrite Hh || rewrite Hw); reflexivity.
Qed.

Ltac field_of_options :=
  unfold set_pstops_options;
  match goal with
  | |- context [match ?o "PageSize"%string with _ => _ end] =>
      destruct (o "PageSize"%string);
      [rewrite resolve_page_size_keeps by (intros ? []; reflexivity) |]
  end;
  repeat first
    [ rewrite int_option_keeps by (intros ? []; reflexivity)
    | rewrite int_option_gets by (intros ? []; reflexivity) ];
  reflexivity.

(** X15.  Each integer option reaches its own field and no other: a key
    that is present stores [atoi] of its value, a key that is absent
    leaves the field as it was, and no later option or the page size
    overwrites it. *)
Theorem options_reach_their_fields (config : print_job_config_t)
    (o : string -> option string) :
  let get (name : string) (old : Z) :=
    match o name with Some val => atoi val | None => old end in
  let c := set_pstops_options config o in
  darkness c = get "Darkness"%string (darkness config) /\
  speed c = get "PrintSpeed"%string (speed config) /\
  mediaType c = get "MediaType"%string (mediaType config) /\
  rotate c = get "Rotate"%string (rotate config) /\
  print_mode c = get "PrintMode"%string (print_mode config) /\
  horizontal_offset c = get "Horizontal"%string (horizontal_offset config) /\
  vertical_offset c = get "Vertical"%string (vertical_offset config) /\
  gap_height c = get "GapHeight"%string (gap_height config) /\
  gap_offset c = get "GapOffset"%string (gap_offset config) /\
  mirrorImage c = get "GD41Mirror"%string (mirrorImage config) /\
  negativeImage c = get "GD41Negative"%string (negativeImage config) /\
  job_id c = job_id config /\ copies c = copies config.
Proof.
  intros get c. subst get c. cbv beta.
  repeat split; field_of_options.
Qed.

(** X16.  The page size stays as it was when the [PageSize] key is absent
    and when its value begins neither with [Custom] nor with [w]. *)
Theorem page_size_left_alone (config : print_job_config_t)
    (o : string -> option string) :
  (o "PageSize"%string = None \/
   exists val, o "PageSize"%string = Some val /\
               starts_with_Custom val = false /\
               (forall rest, val <> String "w" rest)) ->
  page_width_mm (set_pstops_options config o) = page_width_mm config /\
  page_height_mm (set_pstops_options config o) = page_height_mm config.
Proof.
  intros Hcase. unfold set_pstops_options.
  assert (Hrest : forall c, match o "PageSize"%string with
                            | Some val => resolve_page_size val c
                            | None => c
                            end = c).
  { intros c. destruct Hcase as [-> | (val & -> & Hc & Hw)]; [reflexivity |].
    now apply page_size_unrecognized. }
  rewrite Hrest.
  split; repeat rewrite int_option_keeps by (intros ? []; reflexivity);
    reflexivity.
Qed.

Lemma page_size_left_alone_witness :
  let c := set_pstops_options
             (set_page_height_mm 30 (set_page_width_mm 50 zero_config))
             (only_page_size "A4") in
  page_width_mm c = 50 /\ page_height_mm c = 30.
Proof.
  apply (page_size_left_alone
           (set_page_height_mm 30 (set_page_width_mm 50 zero_config))
           (only_page_size "A4")).
  right. exists "A4"%string. repeat split. intros rest. discriminate.
Defined.

Lemma mm_exact_below_spec (n points : Z) :
  mm_exact_below n = true -> 0 <= points < n ->
  mm_of_points points = 200 * points / 567.
Proof.
  unfold mm_exact_below. intros Hall Hp. rewrite forallb_forall in Hall.
  specialize (Hall (Z.to_nat points)).
  rewrite Z2Nat.id in Hall by lia. apply Z.eqb_eq, Hall.
  apply in_seq. lia.
Qed.

Lemma mm_exact_below_5001 : mm_exact_below 5001 = true.
Proof. vm_compute. reflexivity. Qed.

(** X17.  For every size from 0 to 5000 points (about 1.76 m) the
    binary64 division by 2.835 followed by the cast to [int] gives the
    exact quotient truncated: the largest whole number of millimetres m
    with 2.835 * m <= points. *)
Theorem mm_of_points_exact (points : Z) :
  0 <= points <= 5000 ->
  mm_of_points points = 200 * points / 567 /\
  2835 * mm_of_points points <= 1000 * points
  < 2835 * (mm_of_points points + 1).
Proof.
  intros Hp.
  assert (Heq : mm_of_points points = 200 * points / 567)
    by (apply (mm_exact_below_spec 5001); [exact mm_exact_below_5001 | lia]).
  split; [exact Heq |]. rewrite Heq.
  pose proof (Z.div_mod (200 * points) 567 ltac:(lia)).
  pose proof (Z.mod_pos_bound (200 * points) 567 ltac:(lia)). lia.
Qed.

Lemma mm_of_points_exact_witness : mm_of_points 567 = 200.
Proof.
  destruct (mm_of_points_exact 567 ltac:(lia)) as [-> _]. reflexivity.
Defined.

Lemma stderr_of_app (t1 t2 : list event) :
  stderr_of (t1 ++ t2) = (stderr_of t1 ++ stderr_of t2)%list.
Proof.
  induction t1 as [| e t1 IH]; [reflexivity |].
  destruct e; cbn [app stderr_of]; now rewrite ?IH.
Qed.

Lemma page_ok_events (config : print_job_config_t) (p : page_input) :
  page_ok p = true ->
  degenerate (header p) = false /\
  snd (page_body config p) = true /\
  length (List.filter is_stdout (fst (page_body config p))) = 1%nat /\
  stderr_of (fst (page_body config p)) = [] /\
  List.filter is_read_header (fst (page_body config p)) = [].
Proof.
  unfold page_ok. intros Hok.
  apply andb_prop in Hok as [Hok Hmono]. apply andb_prop in Hok as [Hok Hread].
  apply andb_prop in Hok as [Hdeg Hraster].
  apply negb_true_iff in Hdeg, Hraster, Hread, Hmono.
  split; [exact Hdeg |]. unfold page_body.
  destruct (raster_alloc p) as [g |]; [| discriminate].
  rewrite Hread.
  destruct (apply_image_manipulations _ _ _ config) as [[b w] h].
  destruct (mono_alloc p) as [gm |]; [| discriminate].
  unfold convert_events. destruct (diffusion_alloc p); repeat split.
Qed.

(** X18.  When every page of the stream can be printed, every page is
    printed: one block on standard output per page, no message on
    standard error, and the stream is read to its end (one header read
    per page and the final one that finds no page). *)
Theorem every_good_page_printed (config : print_job_config_t)
    (raster : list page_input) :
  forallb page_ok raster = true ->
  length (List.filter is_stdout (process_raster_page config raster))
  = length raster /\
  stderr_of (process_raster_page config raster) = [] /\
  List.filter is_read_header (process_raster_page config raster)
  = (repeat (ReadHeader true) (length raster) ++ [ReadHeader false])%list.
Proof.
  induction raster as [| p rest IH]; [intros _; repeat split |].
  cbn [forallb]. intros [Hp Hrest]%andb_prop.
  destruct (IH Hrest) as (IHout & IHerr & IHhdr).
  destruct (page_ok_events config p Hp) as (Hdeg & Hcont & Hout & Herr & Hhdr).
  rewrite process_raster_page_cons, Hdeg. unfold page_then. rewrite Hcont.
  cbn [List.filter is_stdout is_read_header stderr_of length repeat app].
  rewrite !List.filter_app, stderr_of_app, length_app.
  rewrite Hout, Herr, Hhdr, IHout, IHerr, IHhdr. repeat split.
Qed.

Lemma every_good_page_printed_witness :
  length (List.filter is_stdout
            (process_raster_page zero_config [short_page; starved_page]))
  = 2%nat.
Proof.
  apply (every_good_page_printed zero_config [short_page; starved_page]).
  reflexivity.
Defined.
